(** * Voting payload records of boa-sdk-ts: VoterCard and BallotData

    A shallow embedding of [VoterCard] and [BallotData] (the classes that
    define the voting data stored in transaction payloads): their
    constructors, [computeHash], [verify], [serialize] and [deserialize],
    together with the parts of the runtime they are written against
    (Node's [Buffer], the [SmartBuffer] cursor buffer, UTF-8 conversion of
    JavaScript strings) and the helpers of the SDK they call ([VarInt],
    [Utils.readBuffer], [Utils.writeJSBigIntLE], [PublicKey], [Signature],
    [hashFull]). *)

From stdpp Require Import base gmap.
From Stdlib Require Import ZArith List Lia Bool.
From Stdlib Require Strings.Byte.
Import ListNotations.

Local Open Scope Z_scope.

(** ** Bytes and Node's [Buffer] *)

Abbreviation byte := Byte.byte.

(** A [Buffer] is a sequence of octets. *)
Definition Buffer := list byte.

Definition Z_of_byte (b : byte) : Z := Z.of_N (Byte.to_N b).

(** Storing a number into one octet keeps its low eight bits. *)
Definition byte_of_Z (z : Z) : byte :=
  match Byte.of_N (Z.to_N (z mod 256)) with
  | Some b => b
  | None => Byte.x00
  end.

(** [Buffer.alloc(n)]: [n] zero octets. *)
Definition Buffer_alloc (n : nat) : Buffer := repeat Byte.x00 n.

(** The [n] octets of [v], least significant first. *)
Fixpoint le_bytes (n : nat) (v : Z) : Buffer :=
  match n with
  | O => []
  | S n' => byte_of_Z (v mod 256) :: le_bytes n' (v / 256)
  end.

(** The unsigned number a little-endian octet sequence stands for. *)
Fixpoint le_value (bs : Buffer) : Z :=
  match bs with
  | [] => 0
  | b :: r => Z_of_byte b + 256 * le_value r
  end.

Definition Buffer_eq_dec : forall x y : Buffer, {x = y} + {x <> y} :=
  list_eq_dec Byte.byte_eq_dec.

(** ** Exceptions

    Every [throw] of the modelled code is an [Error] value.  The kinds a
    reader of wire data can meet are told apart by what raises them:
    [UnderrunError] is raised by a read that finds fewer octets than it
    needs, [FormatError] by the header test of [BallotData.deserialize],
    [TooLargeError] by the native-number side of [VarInt] on a number that
    needs the 8-octet form ("The number is too large to be processed.").
    [RangeError] is Node's, raised by a fixed-width integer write whose
    value does not fit. *)

Inductive Error : Set :=
| FormatError
| UnderrunError
| TooLargeError
| RangeError.

Inductive Result (A : Type) : Type :=
| Ok (a : A)
| Err (e : Error).

Arguments Ok {A} a.
Arguments Err {A} e.

Definition bind {A B : Type} (m : Result A) (k : A -> Result B) : Result B :=
  match m with
  | Ok a => k a
  | Err e => Err e
  end.

Notation "'let*' x ':=' m 'in' k" :=
  (bind m (fun x => k))
  (at level 10, x pattern, m at level 100, k at level 200).

(** ** The [SmartBuffer] cursor buffer

    A [SmartBuffer] holds the octets written so far and a read cursor.
    The code under study only appends (no write takes an offset), so the
    write cursor of a buffer made by [new SmartBuffer()] always sits at the
    end of the data and is not kept apart from the length. *)

Record SmartBuffer : Type := mkSmartBuffer {
  sb_data : Buffer;
  readOffset : nat
}.

(** [new SmartBuffer()] *)
Definition SmartBuffer_new : SmartBuffer := mkSmartBuffer [] 0.

(** [SmartBuffer.fromBuffer(b)], read from its first octet. *)
Definition SmartBuffer_fromBuffer (b : Buffer) : SmartBuffer :=
  mkSmartBuffer b 0.

(** [buffer.toBuffer()] *)
Definition toBuffer (sb : SmartBuffer) : Buffer := sb_data sb.

(** [buffer.remaining()] *)
Definition remaining (sb : SmartBuffer) : Z :=
  Z.of_nat (length (sb_data sb) - readOffset sb).

(** The octets the read cursor has not passed yet. *)
Definition unread (sb : SmartBuffer) : Buffer :=
  skipn (readOffset sb) (sb_data sb).

(** [buffer.writeBuffer(value)] *)
Definition writeBuffer (value : Buffer) (sb : SmartBuffer) : SmartBuffer :=
  mkSmartBuffer (sb_data sb ++ value) (readOffset sb).

(** [buffer.writeUInt8(v)], [writeUInt16LE], [writeUInt32LE]: Node refuses
    a value outside the width with a [RangeError]. *)
Definition writeUIntLE (width : nat) (value : Z) (sb : SmartBuffer)
  : Result SmartBuffer :=
  if (0 <=? value) && (value <? 256 ^ Z.of_nat width)
  then Ok (writeBuffer (le_bytes width value) sb)
  else Err RangeError.

Definition writeUInt8 := writeUIntLE 1.
Definition writeUInt16LE := writeUIntLE 2.
Definition writeUInt32LE := writeUIntLE 4.

(** The read cursor moved [n] octets on, at most to the end of the data. *)
Definition advance (n : nat) (sb : SmartBuffer) : SmartBuffer :=
  mkSmartBuffer (sb_data sb)
    (Nat.min (length (sb_data sb)) (readOffset sb + n)).

(** [buffer.readBuffer(n)]: the next [n] octets (fewer when the data ends
    first), the cursor moved past them. *)
Definition readBuffer (n : nat) (sb : SmartBuffer) : Buffer * SmartBuffer :=
  (firstn n (unread sb), advance n sb).

(** [buffer.readUInt8()], [readUInt16LE()], [readUInt32LE()], called only
    after the caller has checked [remaining]. *)
Definition readUIntLE (width : nat) (sb : SmartBuffer) : Z * SmartBuffer :=
  let (bs, sb') := readBuffer width sb in (le_value bs, sb').

(** ** [Utils] *)

(** Modelled from the spec: [Utils.SIZE_OF_PUBLIC_KEY] (utils/Utils is not
    among the sources), the width of a "32-byte public key". *)
Definition SIZE_OF_PUBLIC_KEY : nat := 32.

(** Modelled from the spec: [Utils.readBuffer] (utils/Utils is not among
    the sources), "read exactly N bytes (failing on underrun)": an
    [UnderrunError] when fewer octets remain than asked for. *)
Definition Utils_readBuffer (source : SmartBuffer) (length : Z)
  : Result (Buffer * SmartBuffer) :=
  if remaining source <? length then Err UnderrunError
  else Ok (readBuffer (Z.to_nat length) source).

(** Modelled from the spec: [Utils.writeJSBigIntLE] (utils/Utils is not
    among the sources), "a fixed 8-byte little-endian unsigned integer":
    the eight low octets of the value, least significant first. *)
Definition Utils_writeJSBigIntLE (value : Z) : Buffer := le_bytes 8 value.

(** ** [VarInt]

    The codec of utils/VarInt, which is not among the sources: "a compact
    encoding for unsigned integers whose byte length depends on magnitude",
    for native numbers and for 64-bit-safe big integers, "raising an
    underrun failure on insufficient bytes".  The layout is the
    compact-size one of the ledger's wire protocol: one octet up to 0xFC,
    else a marker octet 0xFD, 0xFE or 0xFF followed by the value in 2, 4 or
    8 little-endian octets.  The 8-octet form belongs to the big-integer
    side only: the native-number side refuses a value above 0xFFFFFFFF when
    it writes and the marker 0xFF when it reads. *)

Module VarInt.

(** Modelled from the spec: [VarInt.fromNumber], "encode-to-stream" of a
    native number; a value above 0xFFFFFFFF is refused ("The number is too
    large to be processed."). *)
Definition fromNumber (value : Z) (buffer : SmartBuffer)
  : Result SmartBuffer :=
  if value <=? 0xFC then writeUInt8 value buffer
  else if value <=? 0xFFFF then
    let* b := writeUInt8 0xFD buffer in writeUInt16LE value b
  else if value <=? 0xFFFFFFFF then
    let* b := writeUInt8 0xFE buffer in writeUInt32LE value b
  else Err TooLargeError.

(** Modelled from the spec: [VarInt.fromJSBI], "encode-to-stream" of an
    arbitrary-precision integer, "including 64-bit values": above
    0xFFFFFFFF the marker 0xFF and the value in 8 little-endian octets. *)
Definition fromJSBI (value : Z) (buffer : SmartBuffer)
  : Result SmartBuffer :=
  if value <=? 0xFC then writeUInt8 value buffer
  else if value <=? 0xFFFF then
    let* b := writeUInt8 0xFD buffer in writeUInt16LE value b
  else if value <=? 0xFFFFFFFF then
    let* b := writeUInt8 0xFE buffer in writeUInt32LE value b
  else
    let* b := writeUInt8 0xFF buffer in
    Ok (writeBuffer (Utils_writeJSBigIntLE value) b).

(** Modelled from the spec: a fixed-width read of the codec, "raising an
    underrun failure on insufficient bytes". *)
Definition readChecked (width : nat) (buffer : SmartBuffer)
  : Result (Z * SmartBuffer) :=
  if remaining buffer <? Z.of_nat width then Err UnderrunError
  else Ok (readUIntLE width buffer).

(** Modelled from the spec: [VarInt.toNumber], "decode-from-stream" of a
    native number; the marker 0xFF is refused once it is read, whatever
    follows it ("The number is too large to be processed."). *)
Definition toNumber (buffer : SmartBuffer) : Result (Z * SmartBuffer) :=
  let* (first, b) := readChecked 1 buffer in
  if first <=? 0xFC then Ok (first, b)
  else if first =? 0xFD then readChecked 2 b
  else if first =? 0xFE then readChecked 4 b
  else Err TooLargeError.

(** Modelled from the spec: [VarInt.toJSBI], "decode-from-stream" of an
    arbitrary-precision integer, the marker 0xFF followed by 8 octets. *)
Definition toJSBI (buffer : SmartBuffer) : Result (Z * SmartBuffer) :=
  let* (first, b) := readChecked 1 buffer in
  if first <=? 0xFC then Ok (first, b)
  else if first =? 0xFD then readChecked 2 b
  else if first =? 0xFE then readChecked 4 b
  else readChecked 8 b.

End VarInt.

(** ** JavaScript strings and their UTF-8 form

    A JavaScript string is a sequence of UTF-16 code units.
    [Buffer.from(s)] encodes it in UTF-8 and [b.toString()] decodes UTF-8;
    both replace what they cannot convert (a lone surrogate, an ill-formed
    octet sequence) by U+FFFD. *)

Definition JSString := list Z.

Definition JSString_eq_dec : forall x y : JSString, {x = y} + {x <> y} :=
  list_eq_dec Z.eq_dec.

Definition is_high_surrogate (u : Z) : bool := (0xD800 <=? u) && (u <=? 0xDBFF).
Definition is_low_surrogate (u : Z) : bool := (0xDC00 <=? u) && (u <=? 0xDFFF).

(** A string whose code units are 16-bit and whose surrogates come in
    (high, low) pairs: a sequence of Unicode scalar values. *)
Fixpoint well_formed (s : JSString) : bool :=
  match s with
  | [] => true
  | u :: r =>
    if is_high_surrogate u then
      match r with
      | v :: r' => is_low_surrogate v && well_formed r'
      | [] => false
      end
    else (0 <=? u) && (u <? 0x10000) && negb (is_low_surrogate u)
         && well_formed r
  end.

Definition REPLACEMENT : Z := 0xFFFD.

(** A Unicode scalar value: a code point that is not a surrogate. *)
Definition scalar (cp : Z) : Prop :=
  0 <= cp < 0xD800 \/ 0xE000 <= cp < 0x110000.

Definition utf8_of_code_point (cp : Z) : Buffer :=
  if cp <? 0x80 then [byte_of_Z cp]
  else if cp <? 0x800 then
    [byte_of_Z (0xC0 + cp / 64); byte_of_Z (0x80 + cp mod 64)]
  else if cp <? 0x10000 then
    [byte_of_Z (0xE0 + cp / 4096); byte_of_Z (0x80 + (cp / 64) mod 64);
     byte_of_Z (0x80 + cp mod 64)]
  else
    [byte_of_Z (0xF0 + cp / 262144); byte_of_Z (0x80 + (cp / 4096) mod 64);
     byte_of_Z (0x80 + (cp / 64) mod 64); byte_of_Z (0x80 + cp mod 64)].

(** [Buffer.from(s)] *)
Fixpoint Buffer_from (s : JSString) : Buffer :=
  match s with
  | [] => []
  | u :: r =>
    if is_high_surrogate u then
      match r with
      | v :: r' =>
        if is_low_surrogate v
        then utf8_of_code_point (0x10000 + (u - 0xD800) * 1024 + (v - 0xDC00))
             ++ Buffer_from r'
        else utf8_of_code_point REPLACEMENT ++ Buffer_from r
      | [] => utf8_of_code_point REPLACEMENT
      end
    else if is_low_surrogate u
    then utf8_of_code_point REPLACEMENT ++ Buffer_from r
    else utf8_of_code_point u ++ Buffer_from r
  end.

Definition utf16_of_code_point (cp : Z) : JSString :=
  if cp <? 0x10000 then [cp]
  else [0xD800 + (cp - 0x10000) / 1024; 0xDC00 + (cp - 0x10000) mod 1024].

Definition in_range (lo hi : Z) (b : byte) : bool :=
  (lo <=? Z_of_byte b) && (Z_of_byte b <=? hi).

(** The payload bits of a continuation octet. *)
Definition cont (b : byte) : Z := Z_of_byte b - 0x80.

(** How many octets one decoding step takes. *)
Inductive Consumed : Set := One | Two | Three | Four.

(** One step of UTF-8 decoding at the octet [b0] followed by [r0]: the code
    units it yields and the octets it takes.  An octet that cannot start a
    sequence, or a sequence that stops being well-formed, yields U+FFFD and
    takes the octets that did fit, so that decoding resumes at the one that
    did not. *)
Definition decode_step (b0 : byte) (r0 : Buffer) : JSString * Consumed :=
  let z0 := Z_of_byte b0 in
  if z0 <? 0x80 then ([z0], One)
  else if (0xC2 <=? z0) && (z0 <=? 0xDF) then
    match r0 with
    | b1 :: _ =>
      if in_range 0x80 0xBF b1
      then ([(z0 - 0xC0) * 64 + cont b1], Two)
      else ([REPLACEMENT], One)
    | [] => ([REPLACEMENT], One)
    end
  else if (0xE0 <=? z0) && (z0 <=? 0xEF) then
    match r0 with
    | b1 :: r1 =>
      if in_range (if z0 =? 0xE0 then 0xA0 else 0x80)
                  (if z0 =? 0xED then 0x9F else 0xBF) b1
      then
        match r1 with
        | b2 :: _ =>
          if in_range 0x80 0xBF b2
          then ([(z0 - 0xE0) * 4096 + cont b1 * 64 + cont b2], Three)
          else ([REPLACEMENT], Two)
        | [] => ([REPLACEMENT], Two)
        end
      else ([REPLACEMENT], One)
    | [] => ([REPLACEMENT], One)
    end
  else if (0xF0 <=? z0) && (z0 <=? 0xF4) then
    match r0 with
    | b1 :: r1 =>
      if in_range (if z0 =? 0xF0 then 0x90 else 0x80)
                  (if z0 =? 0xF4 then 0x8F else 0xBF) b1
      then
        match r1 with
        | b2 :: r2 =>
          if in_range 0x80 0xBF b2
          then
            match r2 with
            | b3 :: _ =>
              if in_range 0x80 0xBF b3
              then (utf16_of_code_point
                      ((z0 - 0xF0) * 262144 + cont b1 * 4096
                       + cont b2 * 64 + cont b3),
                    Four)
              else ([REPLACEMENT], Three)
            | [] => ([REPLACEMENT], Three)
            end
          else ([REPLACEMENT], Two)
        | [] => ([REPLACEMENT], Two)
        end
      else ([REPLACEMENT], One)
    | [] => ([REPLACEMENT], One)
    end
  else ([REPLACEMENT], One).

(** [b.toString()] *)
Fixpoint Buffer_toString (bs : Buffer) : JSString :=
  match bs with
  | [] => []
  | b0 :: r0 =>
    let (units, taken) := decode_step b0 r0 in
    units ++
    match taken, r0 with
    | One, _ => Buffer_toString r0
    | Two, _ :: r1 => Buffer_toString r1
    | Three, _ :: _ :: r2 => Buffer_toString r2
    | Four, _ :: _ :: _ :: r3 => Buffer_toString r3
    | _, _ => []
    end
  end.

(** *** UTF-8, as RFC 3629 lays it out

    The table of the standard, written with the bit operations it
    describes; [Buffer_from] is compared with it below.

<<
    Char. number range  |        UTF-8 octet sequence
    0000 0000-0000 007F | 0xxxxxxx
    0000 0080-0000 07FF | 110xxxxx 10xxxxxx
    0000 0800-0000 FFFF | 1110xxxx 10xxxxxx 10xxxxxx
    0001 0000-0010 FFFF | 11110xxx 10xxxxxx 10xxxxxx 10xxxxxx
>> *)

(** [10xxxxxx]: the six low bits of [bits]. *)
Definition tail_octet (bits : Z) : Z := Z.lor 0x80 (Z.land bits 0x3F).

Definition utf8_octets (cp : Z) : list Z :=
  if cp <=? 0x7F then [cp]
  else if cp <=? 0x7FF then [Z.lor 0xC0 (Z.shiftr cp 6); tail_octet cp]
  else if cp <=? 0xFFFF then
    [Z.lor 0xE0 (Z.shiftr cp 12); tail_octet (Z.shiftr cp 6); tail_octet cp]
  else
    [Z.lor 0xF0 (Z.shiftr cp 18); tail_octet (Z.shiftr cp 12);
     tail_octet (Z.shiftr cp 6); tail_octet cp].

(** The code points of a string: a high surrogate and the low surrogate
    that follows it stand for one code point above 0xFFFF, ten bits from
    each; any other code unit stands for itself. *)
Fixpoint code_points (s : JSString) : list Z :=
  match s with
  | [] => []
  | u :: r =>
    match r with
    | v :: r' =>
      if is_high_surrogate u && is_low_surrogate v
      then 0x10000 + Z.shiftl (Z.land u 0x3FF) 10 + Z.land v 0x3FF
           :: code_points r'
      else u :: code_points r
    | [] => [u]
    end
  end.

(** ** [PublicKey] and [Signature] *)

(** Modelled from the spec: [PublicKey] (common/KeyPair is not among the
    sources), a "fixed-width public-key byte container" of 32 octets whose
    [computeHash] appends its raw bytes. *)
Record PublicKey : Type := mkPublicKey { pk_data : Buffer }.

(** Modelled from the spec: [PublicKey.computeHash] (common/KeyPair is not
    among the sources), which appends the "raw bytes" of the key. *)
Definition PublicKey_computeHash (k : PublicKey) (buffer : SmartBuffer)
  : SmartBuffer :=
  writeBuffer (pk_data k) buffer.

(** Modelled from the spec: [Signature] (common/Signature is not among the
    sources), a "fixed-width signature byte container" of
    [Signature.Width] = 64 octets. *)
Record Signature : Type := mkSignature { sig_data : Buffer }.

(** Modelled from the spec: [Signature.Width] (common/Signature is not
    among the sources), the width of a "64-byte signature". *)
Definition Signature_Width : nat := 64.

(** ** Hashing and signature verification *)

(** Modelled from the spec: the two cryptographic collaborators
    (common/Hash and common/KeyPair are not among the sources), "a
    deterministic cryptographic hash function over an ordered byte stream,
    producing a fixed-width digest" and public keys with "a
    [.verify(signature, message_bytes) -> bool] capability".  They are an
    interface here: every statement below holds for any implementation of
    it. *)
Class Primitives : Type := {
  hashBytes : Buffer -> Buffer;
  PublicKey_verify : PublicKey -> Signature -> Buffer -> bool
}.

(** Modelled from the spec: [hashFull] (common/Hash is not among the
    sources), "compute hash of an object given its [computeHashInput] byte
    stream": the object's [computeHash] collects into a new [SmartBuffer],
    whose content is hashed; the result is the digest's [data]. *)
Definition hashFull `{Primitives}
    (computeHash : SmartBuffer -> Result SmartBuffer) : Result Buffer :=
  let* buffer := computeHash SmartBuffer_new in
  Ok (hashBytes (toBuffer buffer)).

(** The signature a constructor stores when it is given none:
    [new Signature(Buffer.alloc(Signature.Width))]. *)
Definition default_signature : Signature :=
  mkSignature (Buffer_alloc Signature_Width).

(** Modelled from the spec: what the data model asks of the verification
    primitive, "zero signature always fails verification". *)
Definition rejects_zero_signature `{Primitives} : Prop :=
  forall (key : PublicKey) (message : Buffer),
    PublicKey_verify key default_signature message = false.

(** ** [VoterCard] *)

Module VoterCard.

Record t : Type := mk {
  validator_address : PublicKey;
  address : PublicKey;
  expires : Z;
  signature : Signature
}.

(** [constructor (validator_address, address, expires, signature?)] *)
Definition new (validator_address address : PublicKey) (expires : Z)
    (signature : option Signature) : t :=
  mk validator_address address expires
     (match signature with
      | Some s => s
      | None => default_signature
      end).

Definition computeHash (this : t) (buffer : SmartBuffer) : SmartBuffer :=
  let buffer := PublicKey_computeHash (validator_address this) buffer in
  let buffer := PublicKey_computeHash (address this) buffer in
  let buf := Utils_writeJSBigIntLE (expires this) in
  writeBuffer buf buffer.

Definition verify `{Primitives} (this : t) : Result bool :=
  let* voter_card_hash := hashFull (fun b => Ok (computeHash this b)) in
  Ok (PublicKey_verify (validator_address this) (signature this)
        voter_card_hash).

Definition serialize (this : t) (buffer : SmartBuffer)
  : Result SmartBuffer :=
  let buffer := writeBuffer (pk_data (validator_address this)) buffer in
  let buffer := writeBuffer (pk_data (address this)) buffer in
  let* buffer := VarInt.fromJSBI (expires this) buffer in
  Ok (writeBuffer (sig_data (signature this)) buffer).

Definition deserialize (buffer : SmartBuffer) : Result (t * SmartBuffer) :=
  let* (validator_address, buffer) :=
    Utils_readBuffer buffer (Z.of_nat SIZE_OF_PUBLIC_KEY) in
  let* (address, buffer) :=
    Utils_readBuffer buffer (Z.of_nat SIZE_OF_PUBLIC_KEY) in
  let* (expires, buffer) := VarInt.toJSBI buffer in
  let* (signature, buffer) :=
    Utils_readBuffer buffer (Z.of_nat Signature_Width) in
  Ok (new (mkPublicKey validator_address) (mkPublicKey address) expires
          (Some (mkSignature signature)),
      buffer).

(** The field values the data model allows: 32-octet keys, an unsigned
    64-bit expiry, a 64-octet signature. *)
Definition valid (c : t) : Prop :=
  length (pk_data (validator_address c)) = SIZE_OF_PUBLIC_KEY /\
  length (pk_data (address c)) = SIZE_OF_PUBLIC_KEY /\
  0 <= expires c < 2 ^ 64 /\
  length (sig_data (signature c)) = Signature_Width.

Definition with_signature (c : t) (s : Signature) : t :=
  mk (validator_address c) (address c) (expires c) s.

End VoterCard.

(** ** [BallotData] *)

Module BallotData.

(** ["BALLOT  "] *)
Definition HEADER : JSString := [66; 65; 76; 76; 79; 84; 32; 32].

Definition WIDTH : Z := 266.

Definition YES : Z := 0.
Definition NO : Z := 1.
Definition BLANK : Z := 2.

Record t : Type := mk {
  proposal_id : JSString;
  ballot : Buffer;
  card : VoterCard.t;
  sequence : Z;
  signature : Signature
}.

(** [constructor (proposal_id, ballot, card, sequence, signature?)] *)
Definition new (proposal_id : JSString) (ballot : Buffer)
    (card : VoterCard.t) (sequence : Z) (signature : option Signature) : t :=
  mk proposal_id ballot card sequence
     (match signature with
      | Some s => s
      | None => default_signature
      end).

Definition computeHash (this : t) (buffer : SmartBuffer)
  : Result SmartBuffer :=
  let buffer := writeBuffer (Buffer_from (proposal_id this)) buffer in
  let buffer := writeBuffer (ballot this) buffer in
  let buffer := VoterCard.computeHash (card this) buffer in
  writeUInt32LE (sequence this) buffer.

Definition verify `{Primitives} (this : t) : Result bool :=
  let* ballot_data_hash := hashFull (computeHash this) in
  Ok (PublicKey_verify (VoterCard.address (card this)) (signature this)
        ballot_data_hash).

Definition serialize (this : t) (buffer : SmartBuffer)
  : Result SmartBuffer :=
  let temp := Buffer_from HEADER in
  let* buffer := VarInt.fromNumber (Z.of_nat (length temp)) buffer in
  let buffer := writeBuffer temp buffer in
  let temp := Buffer_from (proposal_id this) in
  let* buffer := VarInt.fromNumber (Z.of_nat (length temp)) buffer in
  let buffer := writeBuffer temp buffer in
  let* buffer :=
    VarInt.fromNumber (Z.of_nat (length (ballot this))) buffer in
  let buffer := writeBuffer (ballot this) buffer in
  let* buffer := VoterCard.serialize (card this) buffer in
  let* buffer := VarInt.fromNumber (sequence this) buffer in
  Ok (writeBuffer (sig_data (signature this)) buffer).

Definition deserialize (buffer : SmartBuffer) : Result (t * SmartBuffer) :=
  let* (len, buffer) := VarInt.toNumber buffer in
  let* (header, buffer) := Utils_readBuffer buffer len in
  if JSString_eq_dec (Buffer_toString header) HEADER then
    let* (len, buffer) := VarInt.toNumber buffer in
    let* (temp, buffer) := Utils_readBuffer buffer len in
    let proposal_id := Buffer_toString temp in
    let* (len, buffer) := VarInt.toNumber buffer in
    let* (ballot, buffer) := Utils_readBuffer buffer len in
    let* (card, buffer) := VoterCard.deserialize buffer in
    let* (sequence, buffer) := VarInt.toNumber buffer in
    let* (signature, buffer) :=
      Utils_readBuffer buffer (Z.of_nat Signature_Width) in
    Ok (new proposal_id ballot card sequence (Some (mkSignature signature)),
        buffer)
  else Err FormatError.

(** The field values the data model allows: a proposal id that is a
    Unicode string, a credential that is itself well-formed, an unsigned
    32-bit sequence number, a 64-octet signature; and [Buffer] lengths
    within Node's limit. *)
Definition valid (b : t) : Prop :=
  well_formed (proposal_id b) = true /\
  Z.of_nat (length (Buffer_from (proposal_id b))) < 2 ^ 32 /\
  Z.of_nat (length (ballot b)) < 2 ^ 32 /\
  VoterCard.valid (card b) /\
  0 <= sequence b < 2 ^ 32 /\
  length (sig_data (signature b)) = Signature_Width.

Definition with_signature (b : t) (s : Signature) : t :=
  mk (proposal_id b) (ballot b) (card b) (sequence b) s.

End BallotData.

(** ** The wire format, as the interface section of the specification
    lays it out

    These follow the layout tables, not the code; [serialize] is compared
    with them below. *)

(** [varint n] *)
Definition varint_bytes (n : Z) : Buffer :=
  if n <=? 0xFC then le_bytes 1 n
  else if n <=? 0xFFFF then byte_of_Z 0xFD :: le_bytes 2 n
  else if n <=? 0xFFFFFFFF then byte_of_Z 0xFE :: le_bytes 4 n
  else byte_of_Z 0xFF :: le_bytes 8 n.

(** A block of octets behind its length. *)
Definition prefixed (bs : Buffer) : Buffer :=
  varint_bytes (Z.of_nat (length bs)) ++ bs.

(** [[32B validator_pubkey][32B one-time_pubkey][varint expires][64B signature]] *)
Definition VoterCard_wire (c : VoterCard.t) : Buffer :=
  pk_data (VoterCard.validator_address c)
  ++ pk_data (VoterCard.address c)
  ++ varint_bytes (VoterCard.expires c)
  ++ sig_data (VoterCard.signature c).

(** [[varint len][8B "BALLOT  "][varint len][UTF-8 proposal_id][varint len]
    [ballot bytes][VoterCredential wire bytes][varint sequence][64B signature]] *)
Definition BallotData_wire (b : BallotData.t) : Buffer :=
  prefixed (Buffer_from BallotData.HEADER)
  ++ prefixed (Buffer_from (BallotData.proposal_id b))
  ++ prefixed (BallotData.ballot b)
  ++ VoterCard_wire (BallotData.card b)
  ++ varint_bytes (BallotData.sequence b)
  ++ sig_data (BallotData.signature b).

(** The hash input streams, as the component design states them. *)
Definition VoterCard_hash_input (c : VoterCard.t) : Buffer :=
  pk_data (VoterCard.validator_address c)
  ++ pk_data (VoterCard.address c)
  ++ le_bytes 8 (VoterCard.expires c).

Definition BallotData_hash_input (b : BallotData.t) : Buffer :=
  Buffer_from (BallotData.proposal_id b)
  ++ BallotData.ballot b
  ++ VoterCard_hash_input (BallotData.card b)
  ++ le_bytes 4 (BallotData.sequence b).

(** [pre] is [full] cut short: at least one octet of [full] is missing. *)
Definition truncation (pre full : Buffer) : Prop :=
  exists missing, missing <> [] /\ full = pre ++ missing.

(** [reads p bs v]: wherever the octets [bs] come next, the reader [p]
    takes exactly them and returns [v]; where they are cut short, it
    underruns. *)
Definition reads {A : Type} (p : SmartBuffer -> Result (A * SmartBuffer))
    (bs : Buffer) (v : A) : Prop :=
  (forall sb rest, unread sb = bs ++ rest ->
     exists sb', p sb = Ok (v, sb') /\ unread sb' = rest)
  /\ (forall sb, truncation (unread sb) bs -> p sb = Err UnderrunError).

(** A reader whose every success is such a read. *)
Definition framed {A : Type} (p : SmartBuffer -> Result (A * SmartBuffer))
  : Prop :=
  forall sb v sb', p sb = Ok (v, sb') ->
    exists bs, unread sb = bs ++ unread sb' /\ reads p bs v.

(** ** Inputs cut short

    The fields of the two wire layouts, each as the set of its complete
    forms, and what it is for an input to end inside one of them.  These
    follow the layout tables as well, not the code; the two [deserialize]
    are compared with them below. *)

(** The forms of a variable-length integer and the number each stands
    for: one octet up to 0xFC, or the marker 0xFD, 0xFE or 0xFF before 2,
    4 or 8 little-endian octets.  The 8-octet form is a form of big
    integers only ([wide]). *)
Inductive varint_form (wide : bool) : Buffer -> Z -> Prop :=
| form_8 (b : byte) :
    Z_of_byte b <= 0xFC -> varint_form wide [b] (Z_of_byte b)
| form_16 (bs : Buffer) :
    length bs = 2%nat -> varint_form wide (Byte.xfd :: bs) (le_value bs)
| form_32 (bs : Buffer) :
    length bs = 4%nat -> varint_form wide (Byte.xfe :: bs) (le_value bs)
| form_64 (bs : Buffer) :
    wide = true -> length bs = 8%nat ->
    varint_form wide (Byte.xff :: bs) (le_value bs).

Definition field : Type := Buffer -> Prop.

(** [[nB ...]]: [n] octets. *)
Definition octets (n : nat) : field := fun x => length x = n.

(** [[varint sequence]], a native number. *)
Definition number : field := fun x => exists n, varint_form false x n.

(** [[varint expires]], a big integer. *)
Definition big_integer : field := fun x => exists n, varint_form true x n.

(** [[varint len][...]]: a length and as many octets. *)
Definition block : field :=
  fun x => exists nb n bs,
    varint_form false nb n /\ Z.of_nat (length bs) = n /\ x = nb ++ bs.

(** [[varint len][8B "BALLOT  "]] *)
Definition header_block : field :=
  fun x => exists nb,
    varint_form false nb 8
    /\ x = nb ++ [Byte.x42; Byte.x41; Byte.x4c; Byte.x4c;
                  Byte.x4f; Byte.x54; Byte.x20; Byte.x20].

(** [pre] ends inside a field [f]: it is a complete form of [f] less one
    octet or more. *)
Definition cut_short (f : field) (pre : Buffer) : Prop :=
  exists full, f full /\ truncation pre full.

(** [pre] ends inside one of the fields [fs], those before it complete. *)
Fixpoint cut_in (fs : list field) (pre : Buffer) : Prop :=
  match fs with
  | [] => False
  | f :: later =>
    cut_short f pre
    \/ exists x rest, f x /\ pre = x ++ rest /\ cut_in later rest
  end.

(** [[32B validator_pubkey][32B one-time_pubkey][varint expires][64B signature]] *)
Definition VoterCard_fields : list field :=
  [octets 32; octets 32; big_integer; octets 64].

(** [[varint len][UTF-8 proposal_id][varint len][ballot bytes][VoterCredential wire bytes][varint sequence][64B signature]],
    what follows the header. *)
Definition BallotData_fields : list field :=
  [block; block] ++ VoterCard_fields ++ [number; octets 64].

(** A truncated [VoterCard] input ends inside one of the four fields. *)
Definition truncated_VoterCard (pre : Buffer) : Prop :=
  cut_in VoterCard_fields pre.

(** A truncated [BallotData] input ends inside its first block, whatever
    that block holds, or inside a field that follows the header. *)
Definition truncated_BallotData (pre : Buffer) : Prop :=
  cut_short block pre
  \/ exists h rest,
       header_block h /\ pre = h ++ rest /\ cut_in BallotData_fields rest.



(** ** Objects and references

    The classes store what they are given: [this.card = card] keeps the
    caller's reference.  To speak about sharing, credentials and ballots
    live in a store and a ballot object holds the reference of its card. *)

Module Heap.

Definition ref := nat.

Record BallotObject : Type := mkBallotObject {
  proposal_id : JSString;
  ballot : Buffer;
  card : ref;
  sequence : Z;
  signature : Signature
}.

Record t : Type := mk {
  cards : gmap ref VoterCard.t;
  ballots : gmap ref BallotObject
}.

Definition empty : t := mk ∅ ∅.

(** [new VoterCard(...)]: a new object. *)
Definition new_VoterCard (h : t) (validator_address address : PublicKey)
    (expires : Z) (signature : option Signature) : ref * t :=
  let r := fresh (dom (cards h)) in
  (r, mk (<[r := VoterCard.new validator_address address expires signature]>
            (cards h))
         (ballots h)).

(** [new BallotData(proposal_id, ballot, card, sequence, signature?)]: a
    new ballot object; [this.card = card] stores the reference. *)
Definition new_BallotData (h : t) (proposal_id : JSString) (ballot : Buffer)
    (card : ref) (sequence : Z) (signature : option Signature) : ref * t :=
  let r := fresh (dom (ballots h)) in
  (r, mk (cards h)
         (<[r := mkBallotObject proposal_id ballot card sequence
                   (match signature with
                    | Some s => s
                    | None => default_signature
                    end)]> (ballots h))).

(** [BallotData.deserialize(buffer)]: the card is the object that
    [VoterCard.deserialize] makes, the ballot the one that the final
    [new BallotData] makes. *)
Definition deserialize (h : t) (buffer : SmartBuffer)
  : Result (ref * t * SmartBuffer) :=
  let* (b, buffer) := BallotData.deserialize buffer in
  let c := BallotData.card b in
  let (card, h) :=
    new_VoterCard h (VoterCard.validator_address c) (VoterCard.address c)
      (VoterCard.expires c) (Some (VoterCard.signature c)) in
  let (r, h) :=
    new_BallotData h (BallotData.proposal_id b) (BallotData.ballot b) card
      (BallotData.sequence b) (Some (BallotData.signature b)) in
  Ok (r, h, buffer).

(** [card.expires = v], through any reference to the card (the fields
    are public). *)
Definition set_expires (h : t) (card : ref) (v : Z) : t :=
  mk (alter (fun c => VoterCard.mk (VoterCard.validator_address c)
                        (VoterCard.address c) v (VoterCard.signature c))
            card (cards h))
     (ballots h).

(** [ballot.card.expires] *)
Definition card_expires (h : t) (r : ref) : option Z :=
  match ballots h !! r with
  | Some o =>
    match cards h !! card o with
    | Some c => Some (VoterCard.expires c)
    | None => None
    end
  | None => None
  end.

(** Every ballot of the store refers to a card of the store. *)
Definition closed (h : t) : Prop :=
  forall r o, ballots h !! r = Some o -> is_Some (cards h !! card o).

End Heap.

(** An implementation of the interface to run the statements on: the
    digest is the stream itself, and a signature is accepted when it is the
    octet 1 followed by the first 63 octets of the key and the message. *)
Definition toy_verify (key : PublicKey) (s : Signature) (message : Buffer)
  : bool :=
  match sig_data s with
  | b :: r =>
    (Z_of_byte b =? 1)
    && (if Buffer_eq_dec r (firstn 63 (pk_data key ++ message))
        then true else false)
  | [] => false
  end.

Definition toy_primitives : Primitives :=
  {| hashBytes := fun stream => stream; PublicKey_verify := toy_verify |}.

(** ** Sample records *)

Definition toy_sign (key : PublicKey) (message : Buffer) : Signature :=
  mkSignature (Byte.x01 :: firstn 63 (pk_data key ++ message)).

Definition validator_key : PublicKey := mkPublicKey (Buffer_alloc 32).
Definition voting_key : PublicKey := mkPublicKey (repeat Byte.x01 32).

Definition sample_card : VoterCard.t :=
  VoterCard.new validator_key voting_key 1700000000 None.

(** ["PROP-001"] *)
Definition sample_proposal : JSString := [80; 82; 79; 80; 45; 48; 48; 49].

Definition sample_ballot : BallotData.t :=
  BallotData.new sample_proposal (Buffer_alloc 16) sample_card 0 None.

Definition signed_ballot : BallotData.t :=
  BallotData.with_signature sample_ballot
    (toy_sign voting_key (BallotData_hash_input sample_ballot)).

(** ["P\u00E9\u20AC\uD83D\uDE00"]: one code point for each length of
    UTF-8 sequence, the last a surrogate pair (U+1F600). *)
Definition accented_proposal : JSString :=
  [0x50; 0xE9; 0x20AC; 0xD83D; 0xDE00].

Definition accented_ballot : BallotData.t :=
  BallotData.new accented_proposal [Byte.xde; Byte.xad] sample_card 258 None.

(** What exclusive ownership would mean for a store: no two ballot objects
    hold the same card. *)
Definition cards_unshared (h : Heap.t) : Prop :=
  forall r1 r2 o1 o2,
    Heap.ballots h !! r1 = Some o1 ->
    Heap.ballots h !! r2 = Some o2 ->
    r1 <> r2 -> Heap.card o1 <> Heap.card o2.

(** A caller makes one card and constructs two ballots from it. *)
Definition two_ballots_one_card : Heap.ref * Heap.ref * Heap.ref * Heap.t :=
  let (card, h) :=
    Heap.new_VoterCard Heap.empty validator_key voting_key 1700000000 None in
  let (first, h) :=
    Heap.new_BallotData h sample_proposal (Buffer_alloc 16) card 0 None in
  let (second, h) :=
    Heap.new_BallotData h sample_proposal (Buffer_alloc 16) card 1 None in
  (card, first, second, h).

(** ** Base64 text and the wallet link data *)

(** The character of a six-bit value in the base64 alphabet
    [A-Z a-z 0-9 + /]. *)
Definition base64_char (i : Z) : Z :=
  if i <? 26 then 65 + i
  else if i <? 52 then 71 + i
  else if i <? 62 then i - 4
  else if i =? 62 then 43
  else 47.

(** ['='] *)
Definition base64_pad : Z := 61.

(** [b.toString("base64")]: three octets give four characters; a last
    group of one or two octets is padded with ['=']. *)
Fixpoint Buffer_toString_base64 (bs : Buffer) : JSString :=
  match bs with
  | [] => []
  | [a] =>
    [base64_char (Z_of_byte a / 4); base64_char (Z_of_byte a mod 4 * 16);
     base64_pad; base64_pad]
  | [a; b] =>
    [base64_char (Z_of_byte a / 4);
     base64_char (Z_of_byte a mod 4 * 16 + Z_of_byte b / 16);
     base64_char (Z_of_byte b mod 16 * 4); base64_pad]
  | a :: b :: c :: r =>
    [base64_char (Z_of_byte a / 4);
     base64_char (Z_of_byte a mod 4 * 16 + Z_of_byte b / 16);
     base64_char (Z_of_byte b mod 16 * 4 + Z_of_byte c / 64);
     base64_char (Z_of_byte c mod 64)]
    ++ Buffer_toString_base64 r
  end.

(** The six-bit value of a character of the alphabet. *)
Definition base64_index (c : Z) : Z :=
  if (65 <=? c) && (c <=? 90) then c - 65
  else if (97 <=? c) && (c <=? 122) then c - 71
  else if (48 <=? c) && (c <=? 57) then c + 4
  else if c =? 43 then 62
  else 63.

(** Padded base64 text read back, group by group, as
    [Buffer.from(s, "base64")] reads what [toString("base64")] wrote. *)
Fixpoint Buffer_from_base64 (s : JSString) : Buffer :=
  match s with
  | c0 :: c1 :: c2 :: c3 :: r =>
    let i0 := base64_index c0 in
    let i1 := base64_index c1 in
    let i2 := base64_index c2 in
    let i3 := base64_index c3 in
    if c2 =? base64_pad then [byte_of_Z (i0 * 4 + i1 / 16)]
    else if c3 =? base64_pad
    then [byte_of_Z (i0 * 4 + i1 / 16); byte_of_Z (i1 mod 16 * 16 + i2 / 4)]
    else [byte_of_Z (i0 * 4 + i1 / 16); byte_of_Z (i1 mod 16 * 16 + i2 / 4);
          byte_of_Z (i2 mod 4 * 64 + i3)]
         ++ Buffer_from_base64 r
  | _ => []
  end.

Module LinkData.

(** [LinkDataWithVoteData] *)
Record LinkDataWithVoteData : Type := mk { payload : JSString }.

(** [BallotData.getLinkData ()] *)
Definition getLinkData (this : BallotData.t) : Result LinkDataWithVoteData :=
  let buffer := SmartBuffer_new in
  let* buffer := BallotData.serialize this buffer in
  Ok (mk (Buffer_toString_base64 (toBuffer buffer))).

End LinkData.

(** * Properties *)

(** ** Octets and little-endian numbers *)

Lemma Z_of_byte_range (b : byte) : 0 <= Z_of_byte b < 256.
Proof.
  unfold Z_of_byte. pose proof (Byte.to_N_bounded b). lia.
Qed.

Lemma Z_of_byte_of_Z (z : Z) : 0 <= z < 256 -> Z_of_byte (byte_of_Z z) = z.
Proof.
  intros Hz. unfold Z_of_byte, byte_of_Z.
  rewrite Z.mod_small by lia.
  destruct (Byte.of_N (Z.to_N z)) as [b|] eqn:E.
  - apply Byte.to_of_N in E. rewrite E. lia.
  - apply Byte.of_N_None_iff in E. lia.
Qed.

Lemma byte_of_Z_of_byte (b : byte) : byte_of_Z (Z_of_byte b) = b.
Proof.
  unfold byte_of_Z, Z_of_byte.
  pose proof (Byte.to_N_bounded b).
  rewrite Z.mod_small by lia.
  rewrite N2Z.id, Byte.of_to_N. reflexivity.
Qed.

Lemma length_le_bytes (n : nat) (v : Z) : length (le_bytes n v) = n.
Proof.
  revert v. induction n as [|n IH]; intros v; simpl; [reflexivity|].
  now rewrite IH.
Qed.

Lemma le_value_le_bytes (n : nat) (v : Z) :
  0 <= v < 256 ^ Z.of_nat n -> le_value (le_bytes n v) = v.
Proof.
  revert v. induction n as [|n IH]; intros v Hv.
  - simpl in *. lia.
  - cbn [le_bytes le_value].
    rewrite Nat2Z.inj_succ, Z.pow_succ_r in Hv by lia.
    rewrite Z_of_byte_of_Z by (apply Z.mod_pos_bound; lia).
    rewrite IH.
    + pose proof (Z.div_mod v 256). lia.
    + split; [apply Z.div_pos; lia|].
      apply Z.div_lt_upper_bound; lia.
Qed.

(** ** Reading from a [SmartBuffer]

    A read looks only at the unread octets and leaves the rest of them. *)

Lemma remaining_unread (sb : SmartBuffer) :
  remaining sb = Z.of_nat (length (unread sb)).
Proof. unfold remaining, unread. now rewrite length_skipn. Qed.

Lemma unread_advance (n : nat) (sb : SmartBuffer) :
  unread (advance n sb) = skipn n (unread sb).
Proof.
  unfold unread, advance. cbn [sb_data readOffset].
  rewrite skipn_skipn.
  destruct (Nat.le_gt_cases (readOffset sb + n) (length (sb_data sb)))
    as [Hin|Hout].
  - f_equal. lia.
  - rewrite Nat.min_l by lia.
    rewrite skipn_all, skipn_all2 by lia. reflexivity.
Qed.

Lemma unread_fromBuffer (b : Buffer) : unread (SmartBuffer_fromBuffer b) = b.
Proof. reflexivity. Qed.

Lemma writeBuffer_app (a b : Buffer) (sb : SmartBuffer) :
  writeBuffer b (writeBuffer a sb) = writeBuffer (a ++ b) sb.
Proof. unfold writeBuffer. cbn [sb_data readOffset]. now rewrite app_assoc. Qed.

Lemma readBuffer_app (xs rest : Buffer) (sb : SmartBuffer) :
  unread sb = xs ++ rest ->
  readBuffer (length xs) sb = (xs, advance (length xs) sb)
  /\ unread (advance (length xs) sb) = rest.
Proof.
  intros Hu. unfold readBuffer. rewrite unread_advance, Hu. split.
  - f_equal. rewrite firstn_app, Nat.sub_diag, firstn_all. simpl.
    apply app_nil_r.
  - rewrite skipn_app, Nat.sub_diag, skipn_all. reflexivity.
Qed.

Lemma Utils_readBuffer_app (xs rest : Buffer) (sb : SmartBuffer) (n : Z) :
  unread sb = xs ++ rest ->
  n = Z.of_nat (length xs) ->
  exists sb', Utils_readBuffer sb n = Ok (xs, sb') /\ unread sb' = rest.
Proof.
  intros Hu ->. exists (advance (length xs) sb).
  destruct (readBuffer_app xs rest sb Hu) as [Hr Hrest].
  unfold Utils_readBuffer. rewrite remaining_unread, Hu, length_app.
  destruct (Z.ltb_spec (Z.of_nat (length xs + length rest))
              (Z.of_nat (length xs))) as [Hlt|_]; [lia|].
  rewrite Nat2Z.id, Hr. auto.
Qed.

Lemma Utils_readBuffer_underrun (sb : SmartBuffer) (n : Z) :
  Z.of_nat (length (unread sb)) < n ->
  Utils_readBuffer sb n = Err UnderrunError.
Proof.
  intros Hlt. unfold Utils_readBuffer. rewrite remaining_unread.
  destruct (Z.ltb_spec (Z.of_nat (length (unread sb))) n); [reflexivity|lia].
Qed.

(** Cutting short a concatenation cuts its first part, or keeps it whole
    and cuts the second. *)
Lemma truncation_app (pre f g : Buffer) :
  truncation pre (f ++ g) ->
  truncation pre f \/ exists pre', pre = f ++ pre' /\ truncation pre' g.
Proof.
  intros (missing & Hne & Heq).
  destruct (Nat.lt_ge_cases (length pre) (length f)) as [Hlt|Hge].
  - left. exists (skipn (length pre) f). split.
    + intros Hnil. apply (f_equal (@length _)) in Hnil.
      rewrite length_skipn in Hnil. simpl in Hnil. lia.
    + rewrite <- (firstn_skipn (length pre) f) at 1.
      f_equal.
      apply (f_equal (firstn (length pre))) in Heq.
      rewrite !firstn_app, Nat.sub_diag, firstn_all in Heq.
      replace (length pre - length f)%nat with 0%nat in Heq by lia.
      simpl in Heq. rewrite !app_nil_r in Heq. exact Heq.
  - right. exists (skipn (length f) pre). split.
    + rewrite <- (firstn_skipn (length f) pre) at 1. f_equal.
      apply (f_equal (firstn (length f))) in Heq.
      rewrite !firstn_app, Nat.sub_diag, firstn_all in Heq.
      replace (length f - length pre)%nat with 0%nat in Heq by lia.
      simpl in Heq. rewrite !app_nil_r in Heq. symmetry. exact Heq.
    + exists missing. split; [exact Hne|].
      apply (f_equal (skipn (length f))) in Heq.
      rewrite !skipn_app, Nat.sub_diag, skipn_all in Heq.
      replace (length f - length pre)%nat with 0%nat in Heq by lia.
      simpl in Heq. exact Heq.
Qed.

Lemma truncation_length (pre full : Buffer) :
  truncation pre full -> (length pre < length full)%nat.
Proof.
  intros (missing & Hne & ->). rewrite length_app.
  destruct missing; [congruence|simpl; lia].
Qed.

(** ** [VarInt]: what is written is read back *)

Lemma writeUIntLE_ok (width : nat) (v : Z) (sb : SmartBuffer) :
  0 <= v < 256 ^ Z.of_nat width ->
  writeUIntLE width v sb = Ok (writeBuffer (le_bytes width v) sb).
Proof.
  intros [H0 H1]. unfold writeUIntLE.
  destruct (Z.leb_spec 0 v); [|lia].
  destruct (Z.ltb_spec v (256 ^ Z.of_nat width)); [|lia].
  reflexivity.
Qed.

Lemma VarInt_fromJSBI_ok (v : Z) (sb : SmartBuffer) :
  0 <= v < 2 ^ 64 ->
  VarInt.fromJSBI v sb = Ok (writeBuffer (varint_bytes v) sb).
Proof.
  intros Hv. unfold VarInt.fromJSBI, varint_bytes,
    writeUInt8, writeUInt16LE, writeUInt32LE, Utils_writeJSBigIntLE.
  destruct (Z.leb_spec v 0xFC).
  { apply writeUIntLE_ok. change (256 ^ Z.of_nat 1) with 256. lia. }
  rewrite (writeUIntLE_ok 1) by (change (256 ^ Z.of_nat 1) with 256; lia).
  cbn [bind].
  change (le_bytes 1 253) with [byte_of_Z 0xFD].
  change (le_bytes 1 254) with [byte_of_Z 0xFE].
  change (le_bytes 1 255) with [byte_of_Z 0xFF].
  destruct (Z.leb_spec v 0xFFFF).
  { rewrite writeUIntLE_ok by (change (256 ^ Z.of_nat 2) with 65536; lia).
    now rewrite writeBuffer_app. }
  rewrite (writeUIntLE_ok 1) by (change (256 ^ Z.of_nat 1) with 256; lia).
  cbn [bind].
  destruct (Z.leb_spec v 0xFFFFFFFF).
  { rewrite writeUIntLE_ok
      by (change (256 ^ Z.of_nat 4) with 4294967296; lia).
    now rewrite writeBuffer_app. }
  rewrite (writeUIntLE_ok 1) by (change (256 ^ Z.of_nat 1) with 256; lia).
  cbn [bind]. now rewrite writeBuffer_app.
Qed.

Lemma readChecked_bytes (bs rest : Buffer) (sb : SmartBuffer) :
  unread sb = bs ++ rest ->
  exists sb',
    VarInt.readChecked (length bs) sb = Ok (le_value bs, sb')
    /\ unread sb' = rest.
Proof.
  intros Hu. exists (advance (length bs) sb).
  destruct (readBuffer_app bs rest sb Hu) as [Hr Hrest].
  unfold VarInt.readChecked, readUIntLE.
  rewrite remaining_unread, Hu, length_app, Hr.
  destruct (Z.ltb_spec (Z.of_nat (length bs + length rest))
              (Z.of_nat (length bs))); [lia|auto].
Qed.

Lemma readChecked_app (width : nat) (v : Z) (rest : Buffer)
    (sb : SmartBuffer) :
  0 <= v < 256 ^ Z.of_nat width ->
  unread sb = le_bytes width v ++ rest ->
  exists sb', VarInt.readChecked width sb = Ok (v, sb') /\ unread sb' = rest.
Proof.
  intros Hv Hu.
  destruct (readChecked_bytes _ _ _ Hu) as (sb' & Hr & Hrest).
  rewrite length_le_bytes, le_value_le_bytes in Hr by exact Hv.
  eauto.
Qed.

Lemma readChecked_underrun (width : nat) (sb : SmartBuffer) :
  (length (unread sb) < width)%nat ->
  VarInt.readChecked width sb = Err UnderrunError.
Proof.
  intros Hlt. unfold VarInt.readChecked. rewrite remaining_unread.
  destruct (Z.ltb_spec (Z.of_nat (length (unread sb))) (Z.of_nat width));
    [reflexivity|lia].
Qed.

(** The marker octet and the width of what follows it. *)
Lemma varint_bytes_cases (v : Z) :
  0 <= v < 2 ^ 64 ->
  (v <= 0xFC /\ varint_bytes v = le_bytes 1 v)
  \/ (exists m w, varint_bytes v = byte_of_Z m :: le_bytes w v
        /\ 0xFC < m < 256 /\ 0 <= v < 256 ^ Z.of_nat w
        /\ ((m = 0xFD /\ w = 2%nat) \/ (m = 0xFE /\ w = 4%nat)
            \/ (m = 0xFF /\ w = 8%nat))).
Proof.
  intros Hv. unfold varint_bytes.
  destruct (Z.leb_spec v 0xFC); [left; auto|right].
  destruct (Z.leb_spec v 0xFFFF).
  { exists 0xFD, 2%nat. change (256 ^ Z.of_nat 2) with 65536.
    repeat split; try lia; auto. }
  destruct (Z.leb_spec v 0xFFFFFFFF).
  { exists 0xFE, 4%nat. change (256 ^ Z.of_nat 4) with 4294967296.
    repeat split; try lia; auto. }
  exists 0xFF, 8%nat. change (256 ^ Z.of_nat 8) with (2 ^ 64).
  repeat split; try lia; auto.
Qed.

Lemma toJSBI_marker (m : Z) (w : nat) (sb : SmartBuffer) (tail : Buffer) :
  unread sb = byte_of_Z m :: tail ->
  (m = 0xFD /\ w = 2%nat) \/ (m = 0xFE /\ w = 4%nat)
  \/ (m = 0xFF /\ w = 8%nat) ->
  exists sb', VarInt.toJSBI sb = VarInt.readChecked w sb'
              /\ unread sb' = tail.
Proof.
  intros Hu Hm.
  destruct (readChecked_bytes [byte_of_Z m] tail sb Hu) as (sb' & Hr & Ht).
  exists sb'. split; [|exact Ht].
  unfold VarInt.toJSBI. cbn [length] in Hr. rewrite Hr. cbn [bind le_value].
  rewrite Z_of_byte_of_Z by lia.
  destruct Hm as [[-> ->]|[[-> ->]|[-> ->]]]; reflexivity.
Qed.

Lemma toJSBI_app (v : Z) (rest : Buffer) (sb : SmartBuffer) :
  0 <= v < 2 ^ 64 ->
  unread sb = varint_bytes v ++ rest ->
  exists sb', VarInt.toJSBI sb = Ok (v, sb') /\ unread sb' = rest.
Proof.
  intros Hv Hu.
  destruct (varint_bytes_cases v Hv)
    as [[Hs E]|(m & w & E & Hm & Hw & Hmw)]; rewrite E in Hu.
  - destruct (readChecked_app 1 v rest sb) as (sb' & Hr & Ht);
      [change (256 ^ Z.of_nat 1) with 256; lia|exact Hu|].
    exists sb'. split; [|exact Ht].
    unfold VarInt.toJSBI. rewrite Hr. cbn [bind].
    destruct (Z.leb_spec v 0xFC); [reflexivity|lia].
  - cbn [app] in Hu.
    destruct (toJSBI_marker m w sb _ Hu Hmw) as (sb1 & -> & Hu1).
    apply readChecked_app; assumption.
Qed.

(** *** Native numbers

    [toNumber] and [toJSBI] part on the marker 0xFF only, [fromNumber] and
    [fromJSBI] above 0xFFFFFFFF only. *)

Lemma toNumber_toJSBI (sb : SmartBuffer) :
  (forall b tail, unread sb = b :: tail -> Z_of_byte b <> 0xFF) ->
  VarInt.toNumber sb = VarInt.toJSBI sb.
Proof.
  intros Hn. unfold VarInt.toNumber, VarInt.toJSBI.
  destruct (unread sb) as [|b tail] eqn:Hu.
  - rewrite readChecked_underrun by (rewrite Hu; cbn; lia). reflexivity.
  - destruct (readChecked_bytes [b] tail sb Hu) as (sb' & Hr & _).
    cbn [length] in Hr. rewrite Hr. cbn [bind le_value].
    specialize (Hn b tail eq_refl). pose proof (Z_of_byte_range b).
    destruct (Z.leb_spec (Z_of_byte b + 256 * 0) 0xFC); [reflexivity|].
    destruct (Z.eqb_spec (Z_of_byte b + 256 * 0) 0xFD); [reflexivity|].
    destruct (Z.eqb_spec (Z_of_byte b + 256 * 0) 0xFE); [reflexivity|].
    lia.
Qed.

Lemma toNumber_too_large (sb : SmartBuffer) (b : byte) (tail : Buffer) :
  unread sb = b :: tail -> Z_of_byte b = 0xFF ->
  VarInt.toNumber sb = Err TooLargeError.
Proof.
  intros Hu Hb. unfold VarInt.toNumber.
  destruct (readChecked_bytes [b] tail sb Hu) as (sb' & Hr & _).
  cbn [length] in Hr. rewrite Hr. cbn [bind le_value]. rewrite Hb.
  reflexivity.
Qed.

(** What [toNumber] returns, [toJSBI] returns. *)
Lemma toNumber_Ok_toJSBI (sb : SmartBuffer) (r : Z * SmartBuffer) :
  VarInt.toNumber sb = Ok r -> VarInt.toJSBI sb = Ok r.
Proof.
  unfold VarInt.toNumber, VarInt.toJSBI.
  destruct (VarInt.readChecked 1 sb) as [[first b]|e]; [|discriminate].
  cbn [bind].
  destruct (first <=? 0xFC); [auto|].
  destruct (first =? 0xFD); [auto|].
  destruct (first =? 0xFE); [auto|discriminate].
Qed.

Lemma varint_bytes_head (v : Z) :
  0 <= v < 2 ^ 32 ->
  exists b tail, varint_bytes v = b :: tail /\ Z_of_byte b <> 0xFF.
Proof.
  intros Hv. unfold varint_bytes.
  destruct (Z.leb_spec v 0xFC).
  { exists (byte_of_Z (v mod 256)), []. split; [reflexivity|].
    rewrite Z_of_byte_of_Z by (apply Z.mod_pos_bound; lia).
    rewrite Z.mod_small by lia. lia. }
  destruct (Z.leb_spec v 0xFFFF).
  { eexists _, _. split; [reflexivity|]. rewrite Z_of_byte_of_Z; lia. }
  destruct (Z.leb_spec v 0xFFFFFFFF); [|lia].
  eexists _, _. split; [reflexivity|]. rewrite Z_of_byte_of_Z; lia.
Qed.

Lemma VarInt_fromNumber_ok (v : Z) (sb : SmartBuffer) :
  0 <= v < 2 ^ 32 ->
  VarInt.fromNumber v sb = Ok (writeBuffer (varint_bytes v) sb).
Proof.
  intros Hv. rewrite <- VarInt_fromJSBI_ok by lia.
  unfold VarInt.fromNumber, VarInt.fromJSBI.
  destruct (Z.leb_spec v 0xFC); [reflexivity|].
  destruct (Z.leb_spec v 0xFFFF); [reflexivity|].
  destruct (Z.leb_spec v 0xFFFFFFFF); [reflexivity|lia].
Qed.

Lemma toNumber_app (v : Z) (rest : Buffer) (sb : SmartBuffer) :
  0 <= v < 2 ^ 32 ->
  unread sb = varint_bytes v ++ rest ->
  exists sb', VarInt.toNumber sb = Ok (v, sb') /\ unread sb' = rest.
Proof.
  intros Hv Hu. rewrite toNumber_toJSBI.
  - apply toJSBI_app; [lia|exact Hu].
  - destruct (varint_bytes_head v Hv) as (b & tail & Hb & Hne).
    rewrite Hu, Hb. intros b' tail' Heq. injection Heq as <- _. exact Hne.
Qed.

(** ** [VoterCard] on the wire *)

Lemma VoterCard_serialize_wire (c : VoterCard.t) (sb : SmartBuffer) :
  0 <= VoterCard.expires c < 2 ^ 64 ->
  VoterCard.serialize c sb = Ok (writeBuffer (VoterCard_wire c) sb).
Proof.
  intros He. unfold VoterCard.serialize, VoterCard_wire.
  rewrite VarInt_fromJSBI_ok by exact He.
  cbn [bind]. now rewrite !writeBuffer_app.
Qed.

(** One field read from the front of the unread octets. *)
Ltac read_field H :=
  let sb' := fresh "sb" in
  let Hr := fresh "Hr" in
  let Hu := fresh "Hu" in
  destruct H as (sb' & Hr & Hu); rewrite Hr; cbn [bind]; clear Hr.

Lemma VoterCard_deserialize_app (c : VoterCard.t) (rest : Buffer)
    (sb : SmartBuffer) :
  VoterCard.valid c ->
  unread sb = VoterCard_wire c ++ rest ->
  exists sb', VoterCard.deserialize sb = Ok (c, sb') /\ unread sb' = rest.
Proof.
  intros (Hva & Had & He & Hsig) Hu.
  unfold VoterCard_wire in Hu. rewrite <- !app_assoc in Hu.
  unfold VoterCard.deserialize.
  read_field (Utils_readBuffer_app _ _ _ (Z.of_nat SIZE_OF_PUBLIC_KEY) Hu
                ltac:(now rewrite Hva)).
  read_field (Utils_readBuffer_app _ _ _ (Z.of_nat SIZE_OF_PUBLIC_KEY) Hu0
                ltac:(now rewrite Had)).
  read_field (toJSBI_app _ _ _ He Hu1).
  read_field (Utils_readBuffer_app _ _ _ (Z.of_nat Signature_Width) Hu2
                ltac:(now rewrite Hsig)).
  exists sb3. split; [|assumption].
  destruct c as [[va] [ad] e [sg]]. reflexivity.
Qed.

(** ** UTF-8 conversion of strings *)

Lemma Buffer_toString_cons (b0 : byte) (r0 : Buffer) :
  Buffer_toString (b0 :: r0)
  = let (units, taken) := decode_step b0 r0 in
    units ++
    match taken, r0 with
    | One, _ => Buffer_toString r0
    | Two, _ :: r1 => Buffer_toString r1
    | Three, _ :: _ :: r2 => Buffer_toString r2
    | Four, _ :: _ :: _ :: r3 => Buffer_toString r3
    | _, _ => []
    end.
Proof. reflexivity. Qed.

(** Boolean tests of the goal's hypotheses, as arithmetic facts. *)
Ltac bool_facts :=
  unfold in_range, cont, is_high_surrogate, is_low_surrogate in *;
  repeat match goal with
  | H : (_ && _) = true |- _ => apply andb_prop in H; destruct H
  | H : (_ && _) = false |- _ => apply andb_false_iff in H; destruct H
  | H : negb _ = true |- _ => apply negb_true_iff in H
  | H : (_ <=? _) = true |- _ => apply Z.leb_le in H
  | H : (_ <=? _) = false |- _ => apply Z.leb_gt in H
  | H : (_ <? _) = true |- _ => apply Z.ltb_lt in H
  | H : (_ <? _) = false |- _ => apply Z.ltb_ge in H
  | H : (_ =? _) = true |- _ => apply Z.eqb_eq in H
  | H : (_ =? _) = false |- _ => apply Z.eqb_neq in H
  | H : context [if ?c then _ else _] |- _ => destruct c eqn:?
  end.

(** Arithmetic with division by a constant. *)
Ltac div_lia := Z.to_euclidean_division_equations; lia.

(** Case analysis on every test and every list the goal branches on. *)
Ltac branches :=
  repeat match goal with
  | |- context [match ?r with [] => _ | _ :: _ => _ end] => destruct r
  | |- context [if ?c then _ else _] => destruct c eqn:?
  end.

(** An octet outside ASCII never decodes to an ASCII code unit. *)
Lemma decode_step_high (b0 : byte) (r0 : Buffer) :
  0x80 <= Z_of_byte b0 ->
  exists u t c, decode_step b0 r0 = (u :: t, c) /\ 0x80 <= u.
Proof.
  intros Hz. unfold decode_step, utf16_of_code_point.
  destruct (Z.ltb_spec (Z_of_byte b0) 0x80); [lia|].
  branches; bool_facts;
    (eexists _, _, _; split; [reflexivity|unfold REPLACEMENT; div_lia]).
Qed.

Lemma decode_step_low (b0 : byte) (r0 : Buffer) :
  Z_of_byte b0 < 0x80 -> decode_step b0 r0 = ([Z_of_byte b0], One).
Proof.
  intros Hz. unfold decode_step.
  destruct (Z.ltb_spec (Z_of_byte b0) 0x80); [reflexivity|lia].
Qed.

(** Only the ASCII octets of an ASCII string decode to it. *)
Lemma Buffer_toString_ascii (s : JSString) :
  Forall (fun u => u < 0x80) s ->
  forall bs, Buffer_toString bs = s -> bs = map byte_of_Z s.
Proof.
  induction s as [|u s IH]; intros HF bs E.
  - destruct bs as [|b0 r0]; [reflexivity|].
    rewrite Buffer_toString_cons in E.
    destruct (Z.lt_ge_cases (Z_of_byte b0) 0x80) as [Hlo|Hhi].
    + rewrite decode_step_low in E by exact Hlo. discriminate.
    + destruct (decode_step_high b0 r0 Hhi) as (u' & t & c & Hd & _).
      rewrite Hd in E. discriminate.
  - inversion HF as [|? ? Hu HF']; subst.
    destruct bs as [|b0 r0]; [discriminate|].
    rewrite Buffer_toString_cons in E.
    destruct (Z.lt_ge_cases (Z_of_byte b0) 0x80) as [Hlo|Hhi].
    + rewrite decode_step_low in E by exact Hlo.
      cbn [app] in E. injection E as E0 E1.
      cbn [map]. rewrite <- E0, byte_of_Z_of_byte.
      f_equal. apply IH; assumption.
    + destruct (decode_step_high b0 r0 Hhi) as (u' & t & c & Hd & Hu').
      rewrite Hd in E. cbn [app] in E. injection E as E0 E1. lia.
Qed.

Lemma Buffer_toString_code_point (cp : Z) (rest : Buffer) :
  scalar cp ->
  Buffer_toString (utf8_of_code_point cp ++ rest)
  = utf16_of_code_point cp ++ Buffer_toString rest.
Proof.
  intros Hs. unfold scalar in Hs. unfold utf8_of_code_point.
  destruct (Z.ltb_spec cp 0x80); [|destruct (Z.ltb_spec cp 0x800);
    [|destruct (Z.ltb_spec cp 0x10000)]];
    cbn [app]; rewrite Buffer_toString_cons; unfold decode_step, in_range, cont;
    rewrite !Z_of_byte_of_Z by div_lia.
  all: unfold utf16_of_code_point.
  all: repeat match goal with
       | |- context [if ?c then _ else _] =>
         destruct c eqn:?; bool_facts; try (exfalso; div_lia)
       end.
  all: cbn [app]; repeat f_equal; div_lia.
Qed.

(** A Unicode string survives encoding and decoding. *)
Lemma Buffer_toString_from (s : JSString) :
  well_formed s = true -> Buffer_toString (Buffer_from s) = s.
Proof.
  remember (length s) as n eqn:Hn.
  assert (Hlen : (length s <= n)%nat) by lia. clear Hn.
  revert s Hlen. induction n as [|n IH]; intros s Hlen Hwf.
  { destruct s; [reflexivity|cbn [length] in Hlen; lia]. }
  destruct s as [|u r]; [reflexivity|].
  cbn [length] in Hlen. cbn [well_formed Buffer_from] in *.
  destruct (is_high_surrogate u) eqn:Hhi.
  - destruct r as [|v r']; [discriminate|].
    apply andb_prop in Hwf. destruct Hwf as [Hlo Hwf]. rewrite Hlo.
    cbn [length] in Hlen.
    rewrite Buffer_toString_code_point by (bool_facts; unfold scalar; lia).
    rewrite IH by (assumption || lia).
    unfold utf16_of_code_point. bool_facts.
    destruct (Z.ltb_spec (65536 + (u - 55296) * 1024 + (v - 56320)) 65536);
      [lia|].
    cbn [app]. repeat f_equal; div_lia.
  - destruct (is_low_surrogate u) eqn:Hlo.
    + rewrite andb_false_r in Hwf. discriminate.
    + rewrite andb_true_r in Hwf.
      apply andb_prop in Hwf. destruct Hwf as [Hu Hwf].
      rewrite Buffer_toString_code_point.
      * rewrite IH by (assumption || lia).
        unfold utf16_of_code_point. bool_facts;
          (destruct (Z.ltb_spec u 65536); [reflexivity|lia]).
      * unfold scalar. bool_facts; lia.
Qed.

(** *** [Buffer_from] writes UTF-8 *)

Lemma lor_high (a y n : Z) :
  0 <= n -> 0 <= y < 2 ^ n -> Z.lor (a * 2 ^ n) y = a * 2 ^ n + y.
Proof.
  intros Hn Hy. rewrite <- Z.add_lor_land.
  assert (H0 : Z.land (a * 2 ^ n) y = 0); [|lia].
  apply Z.bits_inj'. intros i Hi. rewrite Z.land_spec, Z.bits_0.
  destruct (Z.lt_ge_cases i n).
  - now rewrite Z.mul_pow2_bits_low by lia.
  - rewrite <- (Z.mod_small y (2 ^ n)) by lia.
    rewrite Z.mod_pow2_bits_high by lia. apply andb_false_r.
Qed.

Lemma tail_octet_value (bits : Z) : tail_octet bits = 0x80 + bits mod 64.
Proof.
  unfold tail_octet. change 0x3F with (Z.ones 6).
  rewrite Z.land_ones by lia. change 0x80 with (2 * 2 ^ 6).
  apply lor_high; [lia|]. apply Z.mod_pos_bound. lia.
Qed.

Lemma utf8_of_code_point_octets (cp : Z) :
  0 <= cp < 0x110000 ->
  map Z_of_byte (utf8_of_code_point cp) = utf8_octets cp.
Proof.
  intros Hcp. unfold utf8_of_code_point, utf8_octets.
  rewrite !tail_octet_value, !Z.shiftr_div_pow2 by lia.
  change (2 ^ 6) with 64. change (2 ^ 12) with 4096.
  change (2 ^ 18) with 262144.
  destruct (Z.ltb_spec cp 0x80); destruct (Z.leb_spec cp 0x7F); try lia.
  { cbn [map]. now rewrite Z_of_byte_of_Z by lia. }
  destruct (Z.ltb_spec cp 0x800); destruct (Z.leb_spec cp 0x7FF); try lia.
  { cbn [map]. rewrite !Z_of_byte_of_Z by div_lia.
    change 0xC0 with (3 * 2 ^ 6). rewrite lor_high by div_lia. reflexivity. }
  destruct (Z.ltb_spec cp 0x10000); destruct (Z.leb_spec cp 0xFFFF); try lia.
  { cbn [map]. rewrite !Z_of_byte_of_Z by div_lia.
    change 0xE0 with (7 * 2 ^ 5). rewrite lor_high by div_lia. reflexivity. }
  cbn [map]. rewrite !Z_of_byte_of_Z by div_lia.
  change 0xF0 with (15 * 2 ^ 4). rewrite lor_high by div_lia. reflexivity.
Qed.

(** The octets that [Buffer.from] gives for a Unicode string are the
    UTF-8 sequences of its code points, one after the other. *)
Lemma Buffer_from_utf8 (s : JSString) :
  well_formed s = true ->
  map Z_of_byte (Buffer_from s) = flat_map utf8_octets (code_points s).
Proof.
  remember (length s) as n eqn:Hn.
  assert (Hlen : (length s <= n)%nat) by lia. clear Hn.
  revert s Hlen. induction n as [|n IH]; intros s Hlen Hwf.
  { destruct s; [reflexivity|cbn [length] in Hlen; lia]. }
  destruct s as [|u r]; [reflexivity|].
  cbn [length] in Hlen. cbn [well_formed Buffer_from code_points] in *.
  destruct (is_high_surrogate u) eqn:Hhi.
  - destruct r as [|v r']; [discriminate|].
    apply andb_prop in Hwf. destruct Hwf as [Hlo Hwf]. rewrite Hlo.
    cbn [length] in Hlen. cbn [andb flat_map].
    rewrite map_app, IH by (assumption || lia).
    rewrite utf8_of_code_point_octets by (bool_facts; lia).
    f_equal. f_equal. change 0x3FF with (Z.ones 10).
    rewrite !Z.land_ones, Z.shiftl_mul_pow2 by lia.
    change (2 ^ 10) with 1024. bool_facts. div_lia.
  - destruct (is_low_surrogate u) eqn:Hlo.
    + rewrite andb_false_r in Hwf. discriminate.
    + rewrite andb_true_r in Hwf.
      apply andb_prop in Hwf. destruct Hwf as [Hu Hwf].
      rewrite map_app, IH by (assumption || lia).
      rewrite utf8_of_code_point_octets by (bool_facts; lia).
      cbn [andb]. destruct r; reflexivity.
Qed.

(** The first and the last code point of each length. *)
Example Buffer_from_boundaries :
  Buffer_from [0x00] = [Byte.x00]
  /\ Buffer_from [0x7F] = [Byte.x7f]
  /\ Buffer_from [0x80] = [Byte.xc2; Byte.x80]
  /\ Buffer_from [0x7FF] = [Byte.xdf; Byte.xbf]
  /\ Buffer_from [0x800] = [Byte.xe0; Byte.xa0; Byte.x80]
  /\ Buffer_from [0xFFFF] = [Byte.xef; Byte.xbf; Byte.xbf]
  /\ Buffer_from [0xD800; 0xDC00] = [Byte.xf0; Byte.x90; Byte.x80; Byte.x80]
  /\ Buffer_from [0xDBFF; 0xDFFF] = [Byte.xf4; Byte.x8f; Byte.xbf; Byte.xbf]
  /\ Buffer_from [0xD800] = [Byte.xef; Byte.xbf; Byte.xbd].
Proof. repeat split. Qed.

Lemma Buffer_from_HEADER :
  Buffer_from BallotData.HEADER = map byte_of_Z BallotData.HEADER.
Proof. reflexivity. Qed.

(** The header test of [BallotData.deserialize] passes for the eight
    octets of the literal and for nothing else. *)
Lemma header_test (header : Buffer) :
  Buffer_toString header = BallotData.HEADER
  <-> header = Buffer_from BallotData.HEADER.
Proof.
  split.
  - intros E. rewrite Buffer_from_HEADER.
    apply Buffer_toString_ascii; [|exact E].
    unfold BallotData.HEADER. repeat constructor.
  - intros ->. reflexivity.
Qed.

(** ** [BallotData] on the wire *)

Lemma length_Buffer_from_HEADER :
  length (Buffer_from BallotData.HEADER) = 8%nat.
Proof. reflexivity. Qed.

Lemma header_length_fits :
  0 <= Z.of_nat (length (Buffer_from BallotData.HEADER)) < 2 ^ 32.
Proof. rewrite length_Buffer_from_HEADER. lia. Qed.

Lemma BallotData_serialize_wire (b : BallotData.t) (sb : SmartBuffer) :
  BallotData.valid b ->
  BallotData.serialize b sb = Ok (writeBuffer (BallotData_wire b) sb).
Proof.
  intros (Hwf & Hpid & Hbal & Hcard & Hseq & Hsig).
  unfold BallotData.serialize, BallotData_wire, prefixed.
  rewrite VarInt_fromNumber_ok by apply header_length_fits.
  cbn [bind]. rewrite VarInt_fromNumber_ok by lia.
  cbn [bind]. rewrite VarInt_fromNumber_ok by lia.
  cbn [bind]. rewrite VoterCard_serialize_wire by apply Hcard.
  cbn [bind]. rewrite VarInt_fromNumber_ok by lia.
  cbn [bind]. rewrite !writeBuffer_app, <- !app_assoc. reflexivity.
Qed.

Tactic Notation "read_ok" constr(H) "as" ident(sb') ident(Hu) :=
  let Hr := fresh "Hr" in
  destruct H as (sb' & Hr & Hu); rewrite Hr; cbn [bind]; clear Hr.

Ltac header_passes :=
  match goal with
  | |- context [JSString_eq_dec ?a ?b] =>
    destruct (JSString_eq_dec a b) as [_|Hne];
    [|exfalso; apply Hne; reflexivity]
  end.

Lemma BallotData_deserialize_app (b : BallotData.t) (rest : Buffer)
    (sb : SmartBuffer) :
  BallotData.valid b ->
  unread sb = BallotData_wire b ++ rest ->
  exists sb', BallotData.deserialize sb = Ok (b, sb') /\ unread sb' = rest.
Proof.
  intros (Hwf & Hpid & Hbal & Hcard & Hseq & Hsig) Hu.
  unfold BallotData_wire, prefixed in Hu. rewrite <- !app_assoc in Hu.
  unfold BallotData.deserialize.
  pose proof header_length_fits as H8.
  assert (Hp : 0 <= Z.of_nat (length (Buffer_from (BallotData.proposal_id b)))
               < 2 ^ 32) by lia.
  assert (Hb : 0 <= Z.of_nat (length (BallotData.ballot b)) < 2 ^ 32) by lia.
  assert (Hs : 0 <= BallotData.sequence b < 2 ^ 32) by lia.
  read_ok (toNumber_app _ _ _ H8 Hu) as sb1 Hu1.
  read_ok (Utils_readBuffer_app _ _ _ _ Hu1 eq_refl) as sb2 Hu2.
  header_passes.
  read_ok (toNumber_app _ _ _ Hp Hu2) as sb3 Hu3.
  read_ok (Utils_readBuffer_app _ _ _ _ Hu3 eq_refl) as sb4 Hu4.
  read_ok (toNumber_app _ _ _ Hb Hu4) as sb5 Hu5.
  read_ok (Utils_readBuffer_app _ _ _ _ Hu5 eq_refl) as sb6 Hu6.
  read_ok (VoterCard_deserialize_app _ _ _ Hcard Hu6) as sb7 Hu7.
  read_ok (toNumber_app _ _ _ Hs Hu7) as sb8 Hu8.
  read_ok (Utils_readBuffer_app _ _ _ (Z.of_nat Signature_Width) Hu8
             ltac:(now rewrite Hsig)) as sb9 Hu9.
  exists sb9. split; [|assumption].
  rewrite Buffer_toString_from by exact Hwf.
  destruct b as [pid bal c sq [sg]]. reflexivity.
Qed.

(** ** What a successful read has consumed *)

Lemma framed_Utils_readBuffer (n : Z) :
  framed (fun sb => Utils_readBuffer sb n).
Proof.
  intros sb v sb' E. unfold Utils_readBuffer in E.
  rewrite remaining_unread in E.
  destruct (Z.ltb_spec (Z.of_nat (length (unread sb))) n) as [|Hge];
    [discriminate|].
  unfold readBuffer in E. injection E as <- <-.
  exists (firstn (Z.to_nat n) (unread sb)). split.
  { rewrite unread_advance. symmetry. apply firstn_skipn. }
  assert (Hlen : length (firstn (Z.to_nat n) (unread sb)) = Z.to_nat n)
    by (rewrite length_firstn; lia).
  split.
  - intros s rest Hu.
    destruct (readBuffer_app _ _ _ Hu) as [Hr Hrest]. rewrite Hlen in *.
    exists (advance (Z.to_nat n) s). split; [|exact Hrest].
    unfold Utils_readBuffer. rewrite remaining_unread, Hu, length_app, Hlen.
    destruct (Z.ltb_spec (Z.of_nat (Z.to_nat n + length rest)) n); [lia|].
    now rewrite Hr.
  - intros s Ht. apply truncation_length in Ht. rewrite Hlen in Ht.
    apply Utils_readBuffer_underrun. lia.
Qed.

Lemma readChecked_inv (w : nat) (sb sb' : SmartBuffer) (v : Z) :
  VarInt.readChecked w sb = Ok (v, sb') ->
  exists bs, unread sb = bs ++ unread sb' /\ length bs = w
             /\ v = le_value bs.
Proof.
  unfold VarInt.readChecked, readUIntLE, readBuffer.
  rewrite remaining_unread.
  destruct (Z.ltb_spec (Z.of_nat (length (unread sb))) (Z.of_nat w));
    [discriminate|].
  intros E. injection E as <- <-.
  exists (firstn w (unread sb)). rewrite unread_advance, firstn_skipn.
  rewrite length_firstn. repeat split; lia.
Qed.

Lemma reads_readChecked (bs : Buffer) :
  reads (VarInt.readChecked (length bs)) bs (le_value bs).
Proof.
  split.
  - intros sb rest Hu. now apply readChecked_bytes.
  - intros sb Ht. apply readChecked_underrun.
    now apply truncation_length.
Qed.

Lemma framed_toJSBI : framed VarInt.toJSBI.
Proof.
  intros sb v sb' E. unfold VarInt.toJSBI in E.
  destruct (VarInt.readChecked 1 sb) as [[first sb1]|e] eqn:E1;
    [|discriminate].
  cbn [bind] in E.
  destruct (readChecked_inv _ _ _ _ E1) as (bs1 & Hu1 & Hl1 & ->).
  destruct bs1 as [|b0 [|? ?]]; try discriminate. clear Hl1.
  cbn [le_value] in E. rewrite Z.mul_0_r, Z.add_0_r in E.
  assert (Hfirst : forall s rest, unread s = b0 :: rest ->
            exists s1, VarInt.readChecked 1 s = Ok (Z_of_byte b0, s1)
                       /\ unread s1 = rest).
  { intros s rest Hs.
    destruct (readChecked_bytes [b0] rest s Hs) as (s1 & Hr & Hrest).
    cbn [length le_value] in Hr. rewrite Z.mul_0_r, Z.add_0_r in Hr. eauto. }
  assert (Hempty : forall s, unread s = [] ->
            VarInt.toJSBI s = Err UnderrunError).
  { intros s Hs. unfold VarInt.toJSBI.
    rewrite readChecked_underrun by (rewrite Hs; cbn; lia). reflexivity. }
  destruct (Z.leb_spec (Z_of_byte b0) 0xFC) as [Hsmall|Hbig].
  - injection E as <- <-. exists [b0]. split; [exact Hu1|]. split.
    + intros s rest Hs. destruct (Hfirst s rest Hs) as (s1 & Hr & Hrest).
      exists s1. split; [|exact Hrest].
      unfold VarInt.toJSBI. rewrite Hr. cbn [bind].
      destruct (Z.leb_spec (Z_of_byte b0) 0xFC); [reflexivity|lia].
    + intros s Ht. apply Hempty. apply truncation_length in Ht.
      cbn [length] in Ht. destruct (unread s); [reflexivity|cbn in Ht; lia].
  - assert (Hw : exists w, VarInt.readChecked w sb1 = Ok (v, sb')
               /\ forall s rest, unread s = b0 :: rest ->
                    exists s1, VarInt.toJSBI s = VarInt.readChecked w s1
                               /\ unread s1 = rest).
    { destruct (Z.eqb_spec (Z_of_byte b0) 0xFD) as [HFD|];
        [|destruct (Z.eqb_spec (Z_of_byte b0) 0xFE) as [HFE|]].
      - exists 2%nat. split; [exact E|]. intros s rest Hs.
        destruct (Hfirst s rest Hs) as (s1 & Hr & Hrest).
        exists s1. split; [|exact Hrest].
        unfold VarInt.toJSBI. rewrite Hr, HFD. reflexivity.
      - exists 4%nat. split; [exact E|]. intros s rest Hs.
        destruct (Hfirst s rest Hs) as (s1 & Hr & Hrest).
        exists s1. split; [|exact Hrest].
        unfold VarInt.toJSBI. rewrite Hr, HFE. reflexivity.
      - exists 8%nat. split; [exact E|]. intros s rest Hs.
        destruct (Hfirst s rest Hs) as (s1 & Hr & Hrest).
        exists s1. split; [|exact Hrest].
        unfold VarInt.toJSBI. rewrite Hr. cbn [bind].
        destruct (Z.leb_spec (Z_of_byte b0) 0xFC); [lia|].
        destruct (Z.eqb_spec (Z_of_byte b0) 0xFD); [lia|].
        destruct (Z.eqb_spec (Z_of_byte b0) 0xFE); [lia|]. reflexivity. }
    destruct Hw as (w & Ew & Hmark).
    destruct (readChecked_inv _ _ _ _ Ew) as (bs2 & Hu2 & Hl2 & ->).
    subst w. exists (b0 :: bs2). split.
    { rewrite Hu1, Hu2. reflexivity. }
    destruct (reads_readChecked bs2) as [Hok Hcut]. split.
    + intros s rest Hs. cbn [app] in Hs.
      destruct (Hmark s _ Hs) as (s1 & -> & Hs1). now apply Hok.
    + intros s Ht. change (b0 :: bs2) with ([b0] ++ bs2) in Ht.
      apply truncation_app in Ht. destruct Ht as [Ht|(pre & Hpre & Ht)].
      * apply Hempty. apply truncation_length in Ht. cbn [length] in Ht.
        destruct (unread s); [reflexivity|cbn in Ht; lia].
      * cbn [app] in Hpre. destruct (Hmark s _ Hpre) as (s1 & -> & Hs1).
        apply Hcut. now rewrite Hs1.
Qed.

Lemma framed_toNumber : framed VarInt.toNumber.
Proof.
  intros sb v sb' E.
  pose proof (toNumber_Ok_toJSBI _ _ E) as EJ.
  destruct (framed_toJSBI _ _ _ EJ) as (bs & Hu & Hok & Hcut).
  exists bs. split; [exact Hu|].
  destruct bs as [|b0 bs'].
  { destruct (Hok (SmartBuffer_fromBuffer []) [] eq_refl) as (s' & Hs & _).
    discriminate Hs. }
  assert (Hb0 : Z_of_byte b0 <> 0xFF).
  { intros Hb. cbn [app] in Hu.
    rewrite (toNumber_too_large sb b0 _ Hu Hb) in E. discriminate. }
  split.
  - intros s rest Hs. rewrite toNumber_toJSBI; [now apply Hok|].
    rewrite Hs. intros b tail Heq. injection Heq as <- _. exact Hb0.
  - intros s Ht. rewrite toNumber_toJSBI; [now apply Hcut|].
    destruct Ht as (missing & _ & Heq). intros b tail Hs.
    rewrite Hs in Heq. injection Heq as <- _. exact Hb0.
Qed.

Lemma framed_bind {A B : Type}
    (p : SmartBuffer -> Result (A * SmartBuffer))
    (k : A -> SmartBuffer -> Result (B * SmartBuffer)) :
  framed p -> (forall a, framed (k a)) ->
  framed (fun sb => let* (a, sb1) := p sb in k a sb1).
Proof.
  intros Hp Hk sb w sb' E.
  destruct (p sb) as [[a sb1]|e] eqn:Ep; [|discriminate]. cbn [bind] in E.
  destruct (Hp _ _ _ Ep) as (bs1 & Hu1 & Hok1 & Hcut1).
  destruct (Hk a _ _ _ E) as (bs2 & Hu2 & Hok2 & Hcut2).
  exists (bs1 ++ bs2). split.
  { rewrite Hu1, Hu2. apply app_assoc. }
  split.
  - intros s rest Hs. rewrite <- app_assoc in Hs.
    destruct (Hok1 s _ Hs) as (s1 & -> & Hs1). cbn [bind]. now apply Hok2.
  - intros s Ht. apply truncation_app in Ht.
    destruct Ht as [Ht|(pre & Hpre & Ht)].
    + now rewrite (Hcut1 s Ht).
    + destruct (Hok1 s _ Hpre) as (s1 & -> & Hs1). cbn [bind].
      apply Hcut2. now rewrite Hs1.
Qed.

Lemma framed_ret {A : Type} (v : A) : framed (fun sb => Ok (v, sb)).
Proof.
  intros sb w sb' E. injection E as <- <-. exists []. split; [reflexivity|].
  split.
  - intros s rest Hs. eauto.
  - intros s (missing & Hne & Hnil). symmetry in Hnil.
    apply app_eq_nil in Hnil. destruct Hnil. congruence.
Qed.

Lemma framed_VoterCard_deserialize : framed VoterCard.deserialize.
Proof.
  unfold VoterCard.deserialize.
  apply framed_bind; [apply framed_Utils_readBuffer|intros validator_address].
  apply framed_bind; [apply framed_Utils_readBuffer|intros address].
  apply framed_bind; [apply framed_toJSBI|intros expires].
  apply framed_bind; [apply framed_Utils_readBuffer|intros signature].
  apply framed_ret.
Qed.

Lemma framed_BallotData_deserialize : framed BallotData.deserialize.
Proof.
  unfold BallotData.deserialize.
  apply framed_bind; [apply framed_toNumber|intros len].
  apply framed_bind; [apply framed_Utils_readBuffer|intros header].
  destruct (JSString_eq_dec (Buffer_toString header) BallotData.HEADER);
    [|intros sb v sb' E; discriminate].
  apply framed_bind; [apply framed_toNumber|intros len'].
  apply framed_bind; [apply framed_Utils_readBuffer|intros temp].
  apply framed_bind; [apply framed_toNumber|intros len''].
  apply framed_bind; [apply framed_Utils_readBuffer|intros ballot].
  apply framed_bind; [apply framed_VoterCard_deserialize|intros card].
  apply framed_bind; [apply framed_toNumber|intros sequence].
  apply framed_bind; [apply framed_Utils_readBuffer|intros signature].
  apply framed_ret.
Qed.

(** ** The readers on the fields of the layouts *)

Lemma reads_toJSBI_marker (m : Z) (bs : Buffer) :
  (m = 0xFD /\ length bs = 2%nat) \/ (m = 0xFE /\ length bs = 4%nat)
  \/ (m = 0xFF /\ length bs = 8%nat) ->
  reads VarInt.toJSBI (byte_of_Z m :: bs) (le_value bs).
Proof.
  intros Hm. split.
  - intros sb rest Hu. cbn [app] in Hu.
    destruct (toJSBI_marker m (length bs) sb _ Hu Hm) as (sb1 & -> & Hu1).
    now apply readChecked_bytes.
  - intros sb Ht. change (byte_of_Z m :: bs) with ([byte_of_Z m] ++ bs) in Ht.
    apply truncation_app in Ht. destruct Ht as [Ht|(pre & Hpre & Ht)].
    + apply truncation_length in Ht. cbn [length] in Ht.
      unfold VarInt.toJSBI. now rewrite readChecked_underrun by lia.
    + cbn [app] in Hpre.
      destruct (toJSBI_marker m (length bs) sb _ Hpre Hm)
        as (sb1 & -> & Hu1).
      apply readChecked_underrun. rewrite Hu1. now apply truncation_length.
Qed.

Lemma reads_toJSBI (x : Buffer) (n : Z) :
  varint_form true x n -> reads VarInt.toJSBI x n.
Proof.
  intros [b Hb|bs Hl|bs Hl|bs _ Hl].
  - split.
    + intros sb rest Hu.
      destruct (readChecked_bytes [b] rest sb Hu) as (sb' & Hr & Ht).
      exists sb'. split; [|exact Ht].
      unfold VarInt.toJSBI. cbn [length] in Hr. rewrite Hr.
      cbn [bind le_value]. rewrite Z.mul_0_r, Z.add_0_r.
      destruct (Z.leb_spec (Z_of_byte b) 0xFC); [reflexivity|lia].
    + intros sb Ht. apply truncation_length in Ht. cbn [length] in Ht.
      unfold VarInt.toJSBI. now rewrite readChecked_underrun by lia.
  - apply (reads_toJSBI_marker 0xFD). auto.
  - apply (reads_toJSBI_marker 0xFE). auto.
  - apply (reads_toJSBI_marker 0xFF). auto.
Qed.

Lemma reads_toNumber (x : Buffer) (n : Z) :
  varint_form false x n -> reads VarInt.toNumber x n.
Proof.
  intros Hf.
  assert (Hhead : exists b tail, x = b :: tail /\ Z_of_byte b <> 0xFF).
  { destruct Hf as [b Hb|bs Hl|bs Hl|bs Hw Hl];
      [| | |discriminate Hw]; eexists _, _; (split; [reflexivity|]);
      [lia|discriminate|discriminate]. }
  assert (Hwide : varint_form true x n).
  { destruct Hf as [b Hb|bs Hl|bs Hl|bs Hw Hl];
      [now apply form_8|now apply form_16|now apply form_32
      |discriminate Hw]. }
  destruct Hhead as (b & tail & -> & Hb).
  destruct (reads_toJSBI _ _ Hwide) as [Hok Hcut]. split.
  - intros sb rest Hu. rewrite toNumber_toJSBI; [now apply Hok|].
    rewrite Hu. intros b' tail' Heq. injection Heq as <- _. exact Hb.
  - intros sb Ht. rewrite toNumber_toJSBI; [now apply Hcut|].
    destruct Ht as (missing & _ & Heq). intros b' tail' Hu.
    rewrite Hu in Heq. injection Heq as <- _. exact Hb.
Qed.

Lemma Utils_readBuffer_cut (n : nat) (sb : SmartBuffer) :
  cut_short (octets n) (unread sb) ->
  Utils_readBuffer sb (Z.of_nat n) = Err UnderrunError.
Proof.
  intros (full & Hf & Ht). apply truncation_length in Ht.
  unfold octets in Hf. apply Utils_readBuffer_underrun. lia.
Qed.

(** A block cut short ends inside its length, or holds fewer octets than
    its length asks for. *)
Lemma cut_short_block (pre : Buffer) :
  cut_short block pre ->
  cut_short number pre
  \/ exists nb n rest,
       varint_form false nb n /\ pre = nb ++ rest
       /\ Z.of_nat (length rest) < n.
Proof.
  intros (full & (nb & n & bs & Hf & Hl & ->) & Ht).
  apply truncation_app in Ht. destruct Ht as [Ht|(pre' & -> & Ht)].
  - left. exists nb. split; [now exists n|exact Ht].
  - right. exists nb, n, pre'. split; [exact Hf|]. split; [reflexivity|].
    apply truncation_length in Ht. lia.
Qed.

(** One field of a layout read: the reader underruns inside it, or
    takes it and leaves an input that ends inside a later field. *)
Lemma octets_step (n : nat) (later : list field) (sb : SmartBuffer) :
  cut_in (octets n :: later) (unread sb) ->
  Utils_readBuffer sb (Z.of_nat n) = Err UnderrunError
  \/ exists x sb1,
       Utils_readBuffer sb (Z.of_nat n) = Ok (x, sb1)
       /\ cut_in later (unread sb1).
Proof.
  intros [Hc|(x & rest & Hx & Hu & H)].
  - left. now apply Utils_readBuffer_cut.
  - right. unfold octets in Hx.
    destruct (Utils_readBuffer_app x rest sb (Z.of_nat n) Hu)
      as (sb1 & Hr & Hu1); [now rewrite Hx|].
    exists x, sb1. split; [exact Hr|]. now rewrite Hu1.
Qed.

Lemma number_step (later : list field) (sb : SmartBuffer) :
  cut_in (number :: later) (unread sb) ->
  VarInt.toNumber sb = Err UnderrunError
  \/ exists n sb1,
       VarInt.toNumber sb = Ok (n, sb1) /\ cut_in later (unread sb1).
Proof.
  intros [(full & (n & Hf) & Ht)|(x & rest & (n & Hf) & Hu & H)].
  - left. exact (proj2 (reads_toNumber _ _ Hf) _ Ht).
  - right. destruct (proj1 (reads_toNumber _ _ Hf) _ _ Hu)
      as (sb1 & Hr & Hu1).
    exists n, sb1. split; [exact Hr|]. now rewrite Hu1.
Qed.

Lemma big_integer_step (later : list field) (sb : SmartBuffer) :
  cut_in (big_integer :: later) (unread sb) ->
  VarInt.toJSBI sb = Err UnderrunError
  \/ exists n sb1,
       VarInt.toJSBI sb = Ok (n, sb1) /\ cut_in later (unread sb1).
Proof.
  intros [(full & (n & Hf) & Ht)|(x & rest & (n & Hf) & Hu & H)].
  - left. exact (proj2 (reads_toJSBI _ _ Hf) _ Ht).
  - right. destruct (proj1 (reads_toJSBI _ _ Hf) _ _ Hu)
      as (sb1 & Hr & Hu1).
    exists n, sb1. split; [exact Hr|]. now rewrite Hu1.
Qed.

Lemma block_cut (sb : SmartBuffer) :
  cut_short block (unread sb) ->
  VarInt.toNumber sb = Err UnderrunError
  \/ exists n sb1,
       VarInt.toNumber sb = Ok (n, sb1)
       /\ Utils_readBuffer sb1 n = Err UnderrunError.
Proof.
  intros Hc.
  destruct (cut_short_block _ Hc)
    as [(full & (n & Hf) & Ht)|(nb & n & rest & Hf & Hu & Hlt)].
  - left. exact (proj2 (reads_toNumber _ _ Hf) _ Ht).
  - right. destruct (proj1 (reads_toNumber _ _ Hf) _ _ Hu)
      as (sb1 & Hr & Hu1).
    exists n, sb1. split; [exact Hr|].
    apply Utils_readBuffer_underrun. now rewrite Hu1.
Qed.

Lemma block_step (later : list field) (sb : SmartBuffer) :
  cut_in (block :: later) (unread sb) ->
  VarInt.toNumber sb = Err UnderrunError
  \/ (exists n sb1,
        VarInt.toNumber sb = Ok (n, sb1)
        /\ Utils_readBuffer sb1 n = Err UnderrunError)
  \/ exists n sb1 bs sb2,
       VarInt.toNumber sb = Ok (n, sb1)
       /\ Utils_readBuffer sb1 n = Ok (bs, sb2)
       /\ cut_in later (unread sb2).
Proof.
  intros [Hc|(x & rest & (nb & n & bs & Hf & Hl & ->) & Hu & H)].
  - destruct (block_cut _ Hc) as [E|E]; auto.
  - right; right. rewrite <- app_assoc in Hu.
    destruct (proj1 (reads_toNumber _ _ Hf) _ _ Hu) as (sb1 & Hr & Hu1).
    destruct (Utils_readBuffer_app bs rest sb1 n Hu1) as (sb2 & Hr2 & Hu2);
      [now rewrite Hl|].
    exists n, sb1, bs, sb2. split; [exact Hr|]. split; [exact Hr2|].
    now rewrite Hu2.
Qed.

Lemma VoterCard_step (later : list field) (sb : SmartBuffer) :
  cut_in (VoterCard_fields ++ later) (unread sb) ->
  VoterCard.deserialize sb = Err UnderrunError
  \/ exists c sb1,
       VoterCard.deserialize sb = Ok (c, sb1) /\ cut_in later (unread sb1).
Proof.
  intros H. unfold VoterCard.deserialize.
  change (VoterCard_fields ++ later)
    with (octets SIZE_OF_PUBLIC_KEY :: octets SIZE_OF_PUBLIC_KEY
          :: big_integer :: octets Signature_Width :: later) in H.
  destruct (octets_step _ _ _ H) as [->|(va & sb1 & -> & H1)];
    [now left|cbn [bind]].
  destruct (octets_step _ _ _ H1) as [->|(ad & sb2 & -> & H2)];
    [now left|cbn [bind]].
  destruct (big_integer_step _ _ H2) as [->|(ex & sb3 & -> & H3)];
    [now left|cbn [bind]].
  destruct (octets_step _ _ _ H3) as [->|(sg & sb4 & -> & H4)];
    [now left|cbn [bind]].
  right. eauto.
Qed.

Lemma truncated_VoterCard_underruns (sb : SmartBuffer) :
  truncated_VoterCard (unread sb) ->
  VoterCard.deserialize sb = Err UnderrunError.
Proof.
  intros H. unfold truncated_VoterCard in H.
  rewrite <- (app_nil_r VoterCard_fields) in H.
  destruct (VoterCard_step _ _ H) as [E|(c & sb1 & _ & [])]. exact E.
Qed.

Lemma truncated_BallotData_underruns (sb : SmartBuffer) :
  truncated_BallotData (unread sb) ->
  BallotData.deserialize sb = Err UnderrunError.
Proof.
  intros [Hc|(h & rest & (nb & Hnb & ->) & Hu & H)];
    unfold BallotData.deserialize.
  { destruct (block_cut _ Hc) as [->|(n & sb1 & -> & E)];
      [reflexivity|cbn [bind]].
    now rewrite E. }
  rewrite <- app_assoc in Hu.
  destruct (proj1 (reads_toNumber _ _ Hnb) _ _ Hu) as (sb1 & -> & Hu1).
  cbn [bind].
  destruct (Utils_readBuffer_app _ _ _ 8 Hu1 eq_refl) as (sb2 & -> & Hu2).
  cbn [bind]. header_passes. rewrite <- Hu2 in H.
  change BallotData_fields
    with (block :: block :: (VoterCard_fields ++ [number; octets 64])) in H.
  destruct (block_step _ _ H)
    as [->|[(n & sb3 & -> & E)|(n & sb3 & temp & sb4 & -> & E & H4)]];
    [reflexivity|cbn [bind]; now rewrite E|cbn [bind]; rewrite E; cbn [bind]].
  clear E.
  destruct (block_step _ _ H4)
    as [->|[(n' & sb5 & -> & E)|(n' & sb5 & bal & sb6 & -> & E & H6)]];
    [reflexivity|cbn [bind]; now rewrite E|cbn [bind]; rewrite E; cbn [bind]].
  destruct (VoterCard_step _ _ H6) as [->|(c & sb7 & -> & H7)];
    [reflexivity|cbn [bind]].
  destruct (number_step _ _ H7) as [->|(sq & sb8 & -> & H8)];
    [reflexivity|cbn [bind]].
  destruct (octets_step Signature_Width [] _ H8) as [->|(sg & sb9 & _ & [])].
  reflexivity.
Qed.

(** * The claims *)

Lemma sample_card_valid : VoterCard.valid sample_card.
Proof. unfold VoterCard.valid. cbn. repeat split; lia. Qed.

Lemma sample_ballot_valid : BallotData.valid sample_ballot.
Proof.
  unfold BallotData.valid. split; [reflexivity|].
  split; [cbn; lia|]. split; [cbn; lia|].
  split; [apply sample_card_valid|]. cbn. repeat split; lia.
Qed.

Lemma unread_written (w : Buffer) :
  unread (writeBuffer w SmartBuffer_new) = w.
Proof. reflexivity. Qed.

(** C1. Round trip: for every ballot record [x] whose fields are valid,
    [serialize] succeeds and [deserialize] on what it wrote returns a record
    equal to [x] in every field (proposal_id, ballot, each field of the
    embedded card, sequence, signature), with all octets consumed; octets
    that follow the record in a buffer are left unread. *)
Theorem BallotData_roundtrip (x : BallotData.t) :
  BallotData.valid x ->
  exists wire,
    BallotData.serialize x SmartBuffer_new = Ok wire
    /\ (exists buffer',
          BallotData.deserialize wire = Ok (x, buffer')
          /\ remaining buffer' = 0)
    /\ (forall rest,
          exists buffer',
            BallotData.deserialize
              (SmartBuffer_fromBuffer (toBuffer wire ++ rest))
            = Ok (x, buffer')
            /\ unread buffer' = rest).
Proof.
  intros Hv. exists (writeBuffer (BallotData_wire x) SmartBuffer_new).
  split; [now apply BallotData_serialize_wire|]. split.
  - destruct (BallotData_deserialize_app x []
                (writeBuffer (BallotData_wire x) SmartBuffer_new) Hv)
      as (sb' & Hd & Hu).
    { rewrite unread_written. now rewrite app_nil_r. }
    exists sb'. split; [exact Hd|]. rewrite remaining_unread, Hu. reflexivity.
  - intros rest. apply BallotData_deserialize_app; [exact Hv|reflexivity].
Qed.

Lemma BallotData_roundtrip_witness :
  BallotData.valid sample_ballot
  /\ exists wire,
       BallotData.serialize sample_ballot SmartBuffer_new = Ok wire
       /\ (exists buffer',
             BallotData.deserialize wire = Ok (sample_ballot, buffer')
             /\ remaining buffer' = 0)
       /\ (forall rest,
             exists buffer',
               BallotData.deserialize
                 (SmartBuffer_fromBuffer (toBuffer wire ++ rest))
               = Ok (sample_ballot, buffer')
               /\ unread buffer' = rest).
Proof.
  split.
  - apply sample_ballot_valid.
  - apply (BallotData_roundtrip sample_ballot). apply sample_ballot_valid.
Defined.

(** The same for the embedded credential on its own. *)
Lemma VoterCard_roundtrip (c : VoterCard.t) :
  VoterCard.valid c ->
  exists wire,
    VoterCard.serialize c SmartBuffer_new = Ok wire
    /\ exists buffer',
         VoterCard.deserialize wire = Ok (c, buffer')
         /\ remaining buffer' = 0.
Proof.
  intros Hv. exists (writeBuffer (VoterCard_wire c) SmartBuffer_new).
  split; [apply VoterCard_serialize_wire, Hv|].
  destruct (VoterCard_deserialize_app c []
              (writeBuffer (VoterCard_wire c) SmartBuffer_new) Hv)
    as (sb' & Hd & Hu).
  { rewrite unread_written. now rewrite app_nil_r. }
  exists sb'. split; [exact Hd|]. rewrite remaining_unread, Hu. reflexivity.
Qed.

(** The proposal id has to be a Unicode string: a lone surrogate is
    written as U+FFFD and read back as U+FFFD. *)
Example lone_surrogate_is_replaced :
  Buffer_toString (Buffer_from [0xD800]) = [0xFFFD].
Proof. reflexivity. Qed.

Lemma length_varint_bytes (n : Z) :
  In (length (varint_bytes n)) [1; 3; 5; 9]%nat.
Proof.
  unfold varint_bytes.
  repeat match goal with
         | |- context [if ?c then _ else _] => destruct c
         end; cbn [length]; rewrite ?length_le_bytes; cbn; auto.
Qed.

Lemma VoterCard_computeHash_input (c : VoterCard.t) (buffer : SmartBuffer) :
  VoterCard.computeHash c buffer
  = writeBuffer (VoterCard_hash_input c) buffer.
Proof.
  unfold VoterCard.computeHash, PublicKey_computeHash, Utils_writeJSBigIntLE,
    VoterCard_hash_input.
  now rewrite !writeBuffer_app.
Qed.

(** C3. The hash input of a voter card is, in this order, the raw octets of
    validator_address, the raw octets of address, and expires in eight
    little-endian octets; this is not the variable-length form that
    [serialize] writes for expires.  For the field values of the data model
    the keys are 32 octets each and the eight octets stand for expires as
    an unsigned number. *)
Theorem VoterCard_computeHash_stream (c : VoterCard.t)
    (buffer : SmartBuffer) :
  VoterCard.computeHash c buffer
  = writeBuffer (pk_data (VoterCard.validator_address c)
                 ++ pk_data (VoterCard.address c)
                 ++ le_bytes 8 (VoterCard.expires c)) buffer
  /\ length (le_bytes 8 (VoterCard.expires c)) = 8%nat
  /\ le_bytes 8 (VoterCard.expires c) <> varint_bytes (VoterCard.expires c)
  /\ (VoterCard.valid c ->
      length (pk_data (VoterCard.validator_address c)) = 32%nat
      /\ length (pk_data (VoterCard.address c)) = 32%nat
      /\ le_value (le_bytes 8 (VoterCard.expires c)) = VoterCard.expires c
      /\ VoterCard.serialize c buffer
         = Ok (writeBuffer (pk_data (VoterCard.validator_address c)
                            ++ pk_data (VoterCard.address c)
                            ++ varint_bytes (VoterCard.expires c)
                            ++ sig_data (VoterCard.signature c)) buffer)).
Proof.
  split; [apply VoterCard_computeHash_input|].
  split; [apply length_le_bytes|]. split.
  - intros E. apply (f_equal (@length _)) in E.
    rewrite length_le_bytes in E.
    pose proof (length_varint_bytes (VoterCard.expires c)) as Hl.
    rewrite <- E in Hl. cbn in Hl. intuition discriminate.
  - intros (Hva & Had & He & Hsig). repeat split; try assumption.
    + apply le_value_le_bytes. change (256 ^ Z.of_nat 8) with (2 ^ 64). lia.
    + now apply VoterCard_serialize_wire.
Qed.

Lemma VoterCard_computeHash_stream_witness :
  VoterCard.valid sample_card
  /\ VoterCard.computeHash sample_card SmartBuffer_new
     = SmartBuffer_fromBuffer
         (Buffer_alloc 32 ++ repeat Byte.x01 32
          ++ [Byte.x00; Byte.xf1; Byte.x53; Byte.x65;
              Byte.x00; Byte.x00; Byte.x00; Byte.x00])
  /\ le_value (le_bytes 8 (VoterCard.expires sample_card)) = 1700000000.
Proof.
  destruct (VoterCard_computeHash_stream sample_card SmartBuffer_new)
    as (Hs & _ & _ & Hvalid).
  destruct (Hvalid sample_card_valid) as (_ & _ & Hv & _).
  split; [apply sample_card_valid|]. split; [|exact Hv].
  rewrite Hs. reflexivity.
Defined.

Lemma BallotData_computeHash_input (b : BallotData.t) (buffer : SmartBuffer) :
  0 <= BallotData.sequence b < 2 ^ 32 ->
  BallotData.computeHash b buffer
  = Ok (writeBuffer (BallotData_hash_input b) buffer).
Proof.
  intros Hs. unfold BallotData.computeHash, writeUInt32LE.
  rewrite writeUIntLE_ok
    by (change (256 ^ Z.of_nat 4) with (2 ^ 32); exact Hs).
  rewrite VoterCard_computeHash_input. unfold BallotData_hash_input.
  now rewrite !writeBuffer_app.
Qed.

(** C2. The hash input of a ballot record is, in this order and with
    nothing between the parts: the UTF-8 octets of proposal_id, the octets
    of ballot, the stream that the card's own [computeHash] collects (which
    is not what the card's [serialize] writes), and sequence in four
    little-endian octets.  Neither the header literal nor the signature
    occurs in it.  That the first part is UTF-8 is stated apart from
    [Buffer_from]: for a proposal id that is a Unicode string its octets
    are the sequences that the table of RFC 3629 gives for the code points
    of the string, and they decode to the string. *)
Theorem BallotData_computeHash_stream (b : BallotData.t)
    (buffer : SmartBuffer) :
  0 <= BallotData.sequence b < 2 ^ 32 ->
  BallotData.computeHash b buffer
  = Ok (writeBuffer
          (Buffer_from (BallotData.proposal_id b)
           ++ BallotData.ballot b
           ++ toBuffer (VoterCard.computeHash (BallotData.card b)
                          SmartBuffer_new)
           ++ le_bytes 4 (BallotData.sequence b)) buffer)
  /\ length (le_bytes 4 (BallotData.sequence b)) = 4%nat
  /\ le_value (le_bytes 4 (BallotData.sequence b)) = BallotData.sequence b
  /\ toBuffer (VoterCard.computeHash (BallotData.card b) SmartBuffer_new)
     = pk_data (VoterCard.validator_address (BallotData.card b))
       ++ pk_data (VoterCard.address (BallotData.card b))
       ++ le_bytes 8 (VoterCard.expires (BallotData.card b))
  /\ (forall wire,
        VoterCard.valid (BallotData.card b) ->
        VoterCard.serialize (BallotData.card b) SmartBuffer_new = Ok wire ->
        toBuffer wire
        <> toBuffer (VoterCard.computeHash (BallotData.card b)
                       SmartBuffer_new))
  /\ (well_formed (BallotData.proposal_id b) = true ->
      map Z_of_byte (Buffer_from (BallotData.proposal_id b))
      = flat_map utf8_octets (code_points (BallotData.proposal_id b))
      /\ Buffer_toString (Buffer_from (BallotData.proposal_id b))
         = BallotData.proposal_id b).
Proof.
  intros Hs.
  assert (Hcard : toBuffer (VoterCard.computeHash (BallotData.card b)
                              SmartBuffer_new)
                  = VoterCard_hash_input (BallotData.card b))
    by now rewrite VoterCard_computeHash_input.
  rewrite Hcard. split; [now apply BallotData_computeHash_input|].
  split; [apply length_le_bytes|]. split.
  { apply le_value_le_bytes. change (256 ^ Z.of_nat 4) with (2 ^ 32). lia. }
  split; [reflexivity|]. split.
  - intros wire (Hva & Had & He & Hsig) Hw E.
    rewrite VoterCard_serialize_wire in Hw by exact He.
    injection Hw as <-. apply (f_equal (@length _)) in E.
    unfold toBuffer, writeBuffer, VoterCard_wire, VoterCard_hash_input in E.
    cbn [sb_data SmartBuffer_new app] in E.
    rewrite !length_app, length_le_bytes, Hsig in E.
    unfold Signature_Width in E. lia.
  - intros Hwf. split; [now apply Buffer_from_utf8|].
    now apply Buffer_toString_from.
Qed.

(** A proposal id outside ASCII: U+0050 is one octet, U+00E9 is C3 A9,
    U+20AC is E2 82 AC and U+1F600 is F0 9F 98 80; the sequence number 258
    is 02 01 00 00. *)
Lemma BallotData_computeHash_stream_witness :
  0 <= BallotData.sequence accented_ballot < 2 ^ 32
  /\ well_formed (BallotData.proposal_id accented_ballot) = true
  /\ BallotData.computeHash accented_ballot SmartBuffer_new
     = Ok (SmartBuffer_fromBuffer
             ([Byte.x50; Byte.xc3; Byte.xa9; Byte.xe2; Byte.x82; Byte.xac;
               Byte.xf0; Byte.x9f; Byte.x98; Byte.x80]
              ++ [Byte.xde; Byte.xad]
              ++ (Buffer_alloc 32 ++ repeat Byte.x01 32
                  ++ [Byte.x00; Byte.xf1; Byte.x53; Byte.x65;
                      Byte.x00; Byte.x00; Byte.x00; Byte.x00])
              ++ [Byte.x02; Byte.x01; Byte.x00; Byte.x00]))
  /\ code_points (BallotData.proposal_id accented_ballot)
     = [0x50; 0xE9; 0x20AC; 0x1F600]
  /\ map Z_of_byte (Buffer_from (BallotData.proposal_id accented_ballot))
     = [0x50; 0xC3; 0xA9; 0xE2; 0x82; 0xAC; 0xF0; 0x9F; 0x98; 0x80]
  /\ Buffer_toString
       [Byte.x50; Byte.xc3; Byte.xa9; Byte.xe2; Byte.x82; Byte.xac;
        Byte.xf0; Byte.x9f; Byte.x98; Byte.x80]
     = [0x50; 0xE9; 0x20AC; 0xD83D; 0xDE00].
Proof.
  assert (Hs : 0 <= BallotData.sequence accented_ballot < 2 ^ 32)
    by (cbn; lia).
  assert (Hwf : well_formed (BallotData.proposal_id accented_ballot) = true)
    by reflexivity.
  split; [exact Hs|]. split; [exact Hwf|].
  destruct (BallotData_computeHash_stream accented_ballot SmartBuffer_new Hs)
    as (H & _ & _ & _ & _ & Hutf8).
  destruct (Hutf8 Hwf) as [Hoctets Hback].
  split; [rewrite H; reflexivity|]. split; [reflexivity|].
  split; [rewrite Hoctets; reflexivity|].
  exact Hback.
Defined.

Lemma BallotData_verify_input `{Primitives} (b : BallotData.t) :
  0 <= BallotData.sequence b < 2 ^ 32 ->
  BallotData.verify b
  = Ok (PublicKey_verify (VoterCard.address (BallotData.card b))
          (BallotData.signature b) (hashBytes (BallotData_hash_input b))).
Proof.
  intros Hs. unfold BallotData.verify, hashFull.
  rewrite BallotData_computeHash_input by exact Hs. reflexivity.
Qed.

(** C4. [verify] of a ballot record hashes the record's hash input stream
    and asks the verification primitive whether the stored signature is
    one of [card.address], the one-time voting key, over that digest; the
    answer, [true] or [false], is returned and nothing is raised. *)
Theorem BallotData_verify_checks_voting_key `{Primitives}
    (b : BallotData.t) :
  0 <= BallotData.sequence b < 2 ^ 32 ->
  BallotData.verify b
  = Ok (PublicKey_verify
          (VoterCard.address (BallotData.card b))
          (BallotData.signature b)
          (hashBytes
             (Buffer_from (BallotData.proposal_id b)
              ++ BallotData.ballot b
              ++ (pk_data (VoterCard.validator_address (BallotData.card b))
                  ++ pk_data (VoterCard.address (BallotData.card b))
                  ++ le_bytes 8 (VoterCard.expires (BallotData.card b)))
              ++ le_bytes 4 (BallotData.sequence b)))).
Proof. apply BallotData_verify_input. Qed.

(** With the sample primitives: a signature made with the voting key is
    accepted although the validator key would refuse it, and a forged one
    gives [false], not an exception. *)
Lemma BallotData_verify_checks_voting_key_witness :
  0 <= BallotData.sequence signed_ballot < 2 ^ 32
  /\ @BallotData.verify toy_primitives signed_ballot = Ok true
  /\ toy_verify (VoterCard.validator_address (BallotData.card signed_ballot))
       (BallotData.signature signed_ballot)
       (BallotData_hash_input signed_ballot) = false
  /\ @BallotData.verify toy_primitives
       (BallotData.with_signature signed_ballot
          (mkSignature (repeat Byte.xff 64))) = Ok false.
Proof.
  assert (Hs : 0 <= BallotData.sequence signed_ballot < 2 ^ 32)
    by (cbn; lia).
  split; [exact Hs|]. split; [|split].
  - rewrite (@BallotData_verify_checks_voting_key toy_primitives
               signed_ballot Hs).
    vm_compute. reflexivity.
  - vm_compute. reflexivity.
  - rewrite (@BallotData_verify_checks_voting_key toy_primitives
               (BallotData.with_signature signed_ballot
                  (mkSignature (repeat Byte.xff 64))) Hs).
    vm_compute. reflexivity.
Defined.

Lemma VoterCard_verify_checks_validator_key `{Primitives} (c : VoterCard.t) :
  VoterCard.verify c
  = Ok (PublicKey_verify (VoterCard.validator_address c)
          (VoterCard.signature c) (hashBytes (VoterCard_hash_input c))).
Proof.
  unfold VoterCard.verify, hashFull. cbn [bind].
  now rewrite VoterCard_computeHash_input.
Qed.

Lemma toy_rejects_zero_signature : @rejects_zero_signature toy_primitives.
Proof. intros key message. reflexivity. Qed.

(** C5. A record made without a signature argument stores 64 zero octets
    as its signature, and, the verification primitive refusing the zero
    signature as the data model requires of it, [verify] returns [false]
    for it: for a voter card, and for a ballot record (whose sequence
    number is an unsigned 32-bit number). *)
Theorem default_signature_fails `{Primitives} :
  rejects_zero_signature ->
  (forall validator_address address expires,
     sig_data (VoterCard.signature
                 (VoterCard.new validator_address address expires None))
     = repeat Byte.x00 64
     /\ VoterCard.verify
          (VoterCard.new validator_address address expires None)
        = Ok false)
  /\ (forall proposal_id ballot card sequence,
        sig_data (BallotData.signature
                    (BallotData.new proposal_id ballot card sequence None))
        = repeat Byte.x00 64
        /\ (0 <= sequence < 2 ^ 32 ->
            BallotData.verify
              (BallotData.new proposal_id ballot card sequence None)
            = Ok false)).
Proof.
  intros Hzero. split.
  - intros va ad e. split; [reflexivity|].
    rewrite VoterCard_verify_checks_validator_key. cbn [VoterCard.new
      VoterCard.signature VoterCard.validator_address].
    now rewrite Hzero.
  - intros pid bal c sq. split; [reflexivity|]. intros Hs.
    rewrite BallotData_verify_input by exact Hs.
    cbn [BallotData.new BallotData.signature BallotData.card].
    now rewrite Hzero.
Qed.

Lemma default_signature_fails_witness :
  @rejects_zero_signature toy_primitives
  /\ sig_data (VoterCard.signature sample_card) = repeat Byte.x00 64
  /\ @VoterCard.verify toy_primitives sample_card = Ok false
  /\ sig_data (BallotData.signature sample_ballot) = repeat Byte.x00 64
  /\ @BallotData.verify toy_primitives sample_ballot = Ok false.
Proof.
  pose proof (@default_signature_fails toy_primitives
                toy_rejects_zero_signature) as [Hcard Hballot].
  destruct (Hcard validator_key voting_key 1700000000) as [Hc1 Hc2].
  destruct (Hballot sample_proposal (Buffer_alloc 16) sample_card 0)
    as [Hb1 Hb2].
  split; [apply toy_rejects_zero_signature|].
  split; [exact Hc1|]. split; [exact Hc2|]. split; [exact Hb1|].
  apply Hb2. lia.
Defined.

(** C6. Header rejection: when the first length-prefixed block of the
    input is there (its length and its octets are read) and its octets are
    not exactly the eight octets of ["BALLOT  "], [deserialize] raises
    [FormatError]; no record is returned. *)
Theorem BallotData_deserialize_rejects_header
    (buffer buffer1 buffer2 : SmartBuffer) (len : Z) (header : Buffer) :
  VarInt.toNumber buffer = Ok (len, buffer1) ->
  Utils_readBuffer buffer1 len = Ok (header, buffer2) ->
  header <> [Byte.x42; Byte.x41; Byte.x4c; Byte.x4c;
             Byte.x4f; Byte.x54; Byte.x20; Byte.x20] ->
  BallotData.deserialize buffer = Err FormatError.
Proof.
  intros Hlen Hblock Hne. unfold BallotData.deserialize.
  rewrite Hlen. cbn [bind]. rewrite Hblock. cbn [bind].
  destruct (JSString_eq_dec (Buffer_toString header) BallotData.HEADER)
    as [E|_]; [|reflexivity].
  apply header_test in E. contradiction.
Qed.

Lemma BallotData_deserialize_rejects_header_witness :
  let buffer :=
    SmartBuffer_fromBuffer
      [Byte.x08; Byte.x42; Byte.x41; Byte.x4c; Byte.x4c;
       Byte.x4f; Byte.x54; Byte.x20; Byte.x21; Byte.x00] in
  BallotData.deserialize buffer = Err FormatError.
Proof.
  intros buffer.
  apply (BallotData_deserialize_rejects_header buffer
           (advance 1 buffer) (advance 9 buffer) 8
           [Byte.x42; Byte.x41; Byte.x4c; Byte.x4c;
            Byte.x4f; Byte.x54; Byte.x20; Byte.x21]).
  - reflexivity.
  - reflexivity.
  - discriminate.
Defined.

(** C7. Truncated input.  A buffer that ends inside a field of the
    layout, the fields before it complete, makes [deserialize] raise
    [UnderrunError]; no object is returned.  For [VoterCard.deserialize]
    the fields are the four of the credential.  For
    [BallotData.deserialize] the buffer ends inside the first
    length-prefixed block, whatever that block holds, or inside a field
    that follows the header.  In particular, when [deserialize] succeeds on
    a buffer, it raises [UnderrunError] on every buffer in which the octets
    of that record are cut short. *)
Theorem truncated_input_underruns :
  (forall buffer,
     truncated_VoterCard (unread buffer) ->
     VoterCard.deserialize buffer = Err UnderrunError)
  /\ (forall buffer,
        truncated_BallotData (unread buffer) ->
        BallotData.deserialize buffer = Err UnderrunError)
  /\ (forall buffer c buffer',
        VoterCard.deserialize buffer = Ok (c, buffer') ->
        exists record,
          unread buffer = record ++ unread buffer'
          /\ forall cut,
               truncation (unread cut) record ->
               VoterCard.deserialize cut = Err UnderrunError)
  /\ (forall buffer b buffer',
        BallotData.deserialize buffer = Ok (b, buffer') ->
        exists record,
          unread buffer = record ++ unread buffer'
          /\ forall cut,
               truncation (unread cut) record ->
               BallotData.deserialize cut = Err UnderrunError).
Proof.
  split; [exact truncated_VoterCard_underruns|].
  split; [exact truncated_BallotData_underruns|].
  split.
  - intros buffer c buffer' E.
    destruct (framed_VoterCard_deserialize _ _ _ E) as (bs & Hu & _ & Hcut).
    eauto.
  - intros buffer b buffer' E.
    destruct (framed_BallotData_deserialize _ _ _ E) as (bs & Hu & _ & Hcut).
    eauto.
Qed.

(** Inputs that end inside the first block and begin no record (a block
    of nine octets; a block of eight that is not the header); ten octets
    of the sample record; a credential that ends inside its expiry. *)
Lemma truncated_input_underruns_witness :
  let full := BallotData_wire sample_ballot in
  BallotData.deserialize
    (SmartBuffer_fromBuffer [Byte.x09; Byte.x42; Byte.x41])
  = Err UnderrunError
  /\ BallotData.deserialize
       (SmartBuffer_fromBuffer [Byte.x08; Byte.x42; Byte.x58])
     = Err UnderrunError
  /\ BallotData.deserialize (SmartBuffer_fromBuffer []) = Err UnderrunError
  /\ BallotData.deserialize (SmartBuffer_fromBuffer (firstn 10 full))
     = Err UnderrunError
  /\ truncated_VoterCard (firstn 66 (VoterCard_wire sample_card))
  /\ VoterCard.deserialize
       (SmartBuffer_fromBuffer (firstn 66 (VoterCard_wire sample_card)))
     = Err UnderrunError
  /\ (exists buffer',
        BallotData.deserialize (SmartBuffer_fromBuffer full)
        = Ok (sample_ballot, buffer'))
  /\ BallotData.deserialize (SmartBuffer_fromBuffer (firstn 232 full))
     = Err UnderrunError.
Proof.
  intros full.
  destruct truncated_input_underruns as (Hcard & Hballot & _ & Hrecord).
  assert (H9 : varint_form false [Byte.x09] 9)
    by (apply (form_8 false Byte.x09); vm_compute; discriminate).
  assert (H8 : varint_form false [Byte.x08] 8)
    by (apply (form_8 false Byte.x08); vm_compute; discriminate).
  assert (H0 : varint_form false [Byte.x00] 0)
    by (apply (form_8 false Byte.x00); vm_compute; discriminate).
  split.
  { apply Hballot. left.
    exists ([Byte.x09] ++ [Byte.x42; Byte.x41] ++ repeat Byte.x00 7). split.
    - exists [Byte.x09], 9, ([Byte.x42; Byte.x41] ++ repeat Byte.x00 7).
      split; [exact H9|]. split; reflexivity.
    - exists (repeat Byte.x00 7). split; [discriminate|reflexivity]. }
  split.
  { apply Hballot. left.
    exists ([Byte.x08] ++ [Byte.x42; Byte.x58] ++ repeat Byte.x00 6). split.
    - exists [Byte.x08], 8, ([Byte.x42; Byte.x58] ++ repeat Byte.x00 6).
      split; [exact H8|]. split; reflexivity.
    - exists (repeat Byte.x00 6). split; [discriminate|reflexivity]. }
  split.
  { apply Hballot. left. exists [Byte.x00]. split.
    - exists [Byte.x00], 0, []. split; [exact H0|]. split; reflexivity.
    - exists [Byte.x00]. split; [discriminate|reflexivity]. }
  split.
  { apply Hballot. right.
    exists (firstn 9 full), [Byte.x08]. split; [|split; [reflexivity|]].
    - exists [Byte.x08]. split; [exact H8|reflexivity].
    - left. exists (firstn 9 (skipn 9 full)). split.
      + exists [Byte.x08], 8, (firstn 8 (skipn 10 full)).
        split; [exact H8|]. split; reflexivity.
      + exists (firstn 8 (skipn 10 full)).
        split; [discriminate|reflexivity]. }
  assert (Hcut : truncated_VoterCard
                   (firstn 66 (VoterCard_wire sample_card))).
  { right.
    exists (Buffer_alloc 32),
      (skipn 32 (firstn 66 (VoterCard_wire sample_card))).
    split; [reflexivity|]. split; [reflexivity|].
    right. exists (repeat Byte.x01 32), [Byte.xfe; Byte.x00].
    split; [reflexivity|]. split; [reflexivity|].
    left. exists [Byte.xfe; Byte.x00; Byte.xf1; Byte.x53; Byte.x65]. split.
    - exists 1700000000.
      apply (form_32 true [Byte.x00; Byte.xf1; Byte.x53; Byte.x65]).
      reflexivity.
    - exists [Byte.xf1; Byte.x53; Byte.x65].
      split; [discriminate|reflexivity]. }
  split; [exact Hcut|]. split; [apply Hcard; exact Hcut|].
  assert (E : BallotData.deserialize (SmartBuffer_fromBuffer full)
              = Ok (sample_ballot, advance (length full)
                                     (SmartBuffer_fromBuffer full)))
    by (vm_compute; reflexivity).
  split; [eauto|].
  destruct (Hrecord _ _ _ E) as (record & Hu & Hall).
  apply Hall.
  assert (Hfull : record = full).
  { change (unread (SmartBuffer_fromBuffer full)) with full in Hu.
    replace (unread (advance (length full) (SmartBuffer_fromBuffer full)))
      with (@nil byte) in Hu by (vm_compute; reflexivity).
    rewrite app_nil_r in Hu. congruence. }
  rewrite Hfull. exists (skipn 232 full). split.
  - vm_compute. discriminate.
  - symmetry. apply firstn_skipn.
Defined.

(** Cutting short what [serialize] wrote for a valid record. *)
Corollary serialized_record_cut_short (b : BallotData.t)
    (wire : SmartBuffer) (pre : Buffer) :
  BallotData.valid b ->
  BallotData.serialize b SmartBuffer_new = Ok wire ->
  truncation pre (toBuffer wire) ->
  BallotData.deserialize (SmartBuffer_fromBuffer pre) = Err UnderrunError.
Proof.
  intros Hv Hs Ht.
  rewrite BallotData_serialize_wire in Hs by exact Hv. injection Hs as <-.
  change (toBuffer (writeBuffer (BallotData_wire b) SmartBuffer_new))
    with (BallotData_wire b) in Ht.
  destruct (BallotData_deserialize_app b [] 
              (SmartBuffer_fromBuffer (BallotData_wire b)) Hv)
    as (sb' & Hd & Hu).
  { rewrite unread_fromBuffer. now rewrite app_nil_r. }
  destruct (framed_BallotData_deserialize _ _ _ Hd)
    as (record & Hrec & _ & Hcut).
  apply Hcut. rewrite Hu, app_nil_r, unread_fromBuffer in Hrec.
  now rewrite <- Hrec.
Qed.

(** C9. The hash input does not determine (proposal_id, ballot): the
    record with proposal id ["AB"] and an empty ballot and the record with
    proposal id ["A"] and the one-octet ballot [0x42], on the same card and
    sequence number, have the same hash input stream, hence the same
    digest, and every signature is accepted for both or for neither. *)
Theorem BallotData_hash_input_not_injective :
  exists b1 b2 : BallotData.t,
    BallotData.card b1 = BallotData.card b2
    /\ BallotData.sequence b1 = BallotData.sequence b2
    /\ (BallotData.proposal_id b1, BallotData.ballot b1)
       <> (BallotData.proposal_id b2, BallotData.ballot b2)
    /\ BallotData.valid b1 /\ BallotData.valid b2
    /\ (exists stream,
          BallotData.computeHash b1 SmartBuffer_new = Ok stream
          /\ BallotData.computeHash b2 SmartBuffer_new = Ok stream)
    /\ (forall P : Primitives,
          hashFull (BallotData.computeHash b1)
          = hashFull (BallotData.computeHash b2)
          /\ forall s : Signature,
               BallotData.verify (BallotData.with_signature b1 s)
               = BallotData.verify (BallotData.with_signature b2 s)).
Proof.
  exists (BallotData.new [65; 66] [] sample_card 0 None),
         (BallotData.new [65] [Byte.x42] sample_card 0 None).
  split; [reflexivity|]. split; [reflexivity|].
  split; [discriminate|].
  assert (Hv : forall pid bal,
            well_formed pid = true ->
            (length (Buffer_from pid) <= 2)%nat -> (length bal <= 2)%nat ->
            BallotData.valid (BallotData.new pid bal sample_card 0 None)).
  { intros pid bal Hwf Hp Hb. unfold BallotData.valid.
    cbn [BallotData.new BallotData.proposal_id BallotData.ballot
         BallotData.card BallotData.sequence BallotData.signature].
    split; [exact Hwf|]. split; [lia|]. split; [lia|].
    split; [apply sample_card_valid|]. split; [lia|reflexivity]. }
  split; [apply Hv; cbn; auto|]. split; [apply Hv; cbn; auto|].
  split.
  - eexists. split; reflexivity.
  - intros P. split; [reflexivity|]. intros s. reflexivity.
Qed.

Lemma Buffer_from_app (p q : JSString) :
  well_formed p = true -> Buffer_from (p ++ q) = Buffer_from p ++ Buffer_from q.
Proof.
  remember (length p) as n eqn:Hn.
  assert (Hlen : (length p <= n)%nat) by lia. clear Hn.
  revert p Hlen. induction n as [|n IH]; intros p Hlen Hwf.
  { destruct p; [reflexivity|cbn [length] in Hlen; lia]. }
  destruct p as [|u r]; [reflexivity|].
  cbn [length] in Hlen. cbn [well_formed] in Hwf.
  cbn [app Buffer_from].
  destruct (is_high_surrogate u).
  - destruct r as [|v r']; [discriminate|].
    apply andb_prop in Hwf. destruct Hwf as [Hlo Hwf].
    cbn [app length] in *. rewrite Hlo, IH by (assumption || lia).
    apply app_assoc.
  - destruct (is_low_surrogate u).
    + rewrite andb_false_r in Hwf. discriminate.
    + apply andb_prop in Hwf. destruct Hwf as [_ Hwf].
      rewrite IH by (assumption || lia). apply app_assoc.
Qed.

Lemma Buffer_from_ascii (q : JSString) :
  Forall (fun u => 0 <= u < 0x80) q -> Buffer_from q = map byte_of_Z q.
Proof.
  induction 1 as [|u q Hu _ IH]; [reflexivity|].
  cbn [Buffer_from map]. unfold is_high_surrogate, is_low_surrogate.
  destruct (Z.leb_spec 0xD800 u); [lia|].
  destruct (Z.leb_spec 0xDC00 u); [lia|]. cbn [andb].
  unfold utf8_of_code_point. destruct (Z.ltb_spec u 0x80); [|lia].
  cbn [app]. now rewrite IH.
Qed.

(** Any ASCII end of the proposal id can be moved to the front of the
    ballot without changing the hash input. *)
Lemma hash_input_boundary_moves (p q : JSString) (ballot : Buffer)
    (card : VoterCard.t) (sequence : Z) (signature : option Signature)
    (buffer : SmartBuffer) :
  well_formed p = true ->
  Forall (fun u => 0 <= u < 0x80) q ->
  BallotData.computeHash
    (BallotData.new (p ++ q) ballot card sequence signature) buffer
  = BallotData.computeHash
      (BallotData.new p (map byte_of_Z q ++ ballot) card sequence signature)
      buffer.
Proof.
  intros Hwf Hq. unfold BallotData.computeHash.
  cbn [BallotData.new BallotData.proposal_id BallotData.ballot
       BallotData.card BallotData.sequence].
  rewrite Buffer_from_app by assumption.
  rewrite (Buffer_from_ascii q) by assumption.
  now rewrite !writeBuffer_app, app_assoc.
Qed.

(** A signature made for the one is a signature of the other. *)
Example moved_octet_shares_signature :
  let b1 := BallotData.new [65; 66] [] sample_card 0 None in
  let b2 := BallotData.new [65] [Byte.x42] sample_card 0 None in
  let s := toy_sign voting_key (BallotData_hash_input b1) in
  @BallotData.verify toy_primitives (BallotData.with_signature b1 s) = Ok true
  /\ @BallotData.verify toy_primitives (BallotData.with_signature b2 s)
     = Ok true.
Proof. split; vm_compute; reflexivity. Qed.

(** C10. The signature is no part of the hash input: two voter cards that
    differ at most in their signature, and two ballot records that differ
    at most in their signature, collect the same stream, and so have the
    same digest. *)
Theorem signature_not_hashed :
  (forall c1 c2 : VoterCard.t,
     VoterCard.validator_address c1 = VoterCard.validator_address c2 ->
     VoterCard.address c1 = VoterCard.address c2 ->
     VoterCard.expires c1 = VoterCard.expires c2 ->
     (forall buffer,
        VoterCard.computeHash c1 buffer = VoterCard.computeHash c2 buffer)
     /\ forall P : Primitives,
          hashFull (fun b => Ok (VoterCard.computeHash c1 b))
          = hashFull (fun b => Ok (VoterCard.computeHash c2 b)))
  /\ (forall b1 b2 : BallotData.t,
        BallotData.proposal_id b1 = BallotData.proposal_id b2 ->
        BallotData.ballot b1 = BallotData.ballot b2 ->
        BallotData.card b1 = BallotData.card b2 ->
        BallotData.sequence b1 = BallotData.sequence b2 ->
        (forall buffer,
           BallotData.computeHash b1 buffer
           = BallotData.computeHash b2 buffer)
        /\ forall P : Primitives,
             hashFull (BallotData.computeHash b1)
             = hashFull (BallotData.computeHash b2)).
Proof.
  split.
  - intros c1 c2 Hva Had He.
    assert (Hc : forall buffer,
              VoterCard.computeHash c1 buffer
              = VoterCard.computeHash c2 buffer).
    { intros buffer. unfold VoterCard.computeHash. now rewrite Hva, Had, He. }
    split; [exact Hc|]. intros P. unfold hashFull. now rewrite Hc.
  - intros b1 b2 Hp Hb Hc Hs.
    assert (Hh : forall buffer,
              BallotData.computeHash b1 buffer
              = BallotData.computeHash b2 buffer).
    { intros buffer. unfold BallotData.computeHash.
      now rewrite Hp, Hb, Hc, Hs. }
    split; [exact Hh|]. intros P. unfold hashFull. now rewrite Hh.
Qed.

Lemma signature_not_hashed_witness :
  VoterCard.computeHash sample_card SmartBuffer_new
  = VoterCard.computeHash
      (VoterCard.with_signature sample_card
         (mkSignature (repeat Byte.xff 64))) SmartBuffer_new
  /\ BallotData.computeHash sample_ballot SmartBuffer_new
     = BallotData.computeHash signed_ballot SmartBuffer_new
  /\ BallotData.signature sample_ballot <> BallotData.signature signed_ballot.
Proof.
  destruct signature_not_hashed as [Hcard Hballot].
  split; [|split].
  - apply (Hcard sample_card
             (VoterCard.with_signature sample_card
                (mkSignature (repeat Byte.xff 64)))); reflexivity.
  - apply (Hballot sample_ballot signed_ballot); reflexivity.
  - discriminate.
Defined.

(** ** Who holds the card: C8 *)

(** C8, as stated, fails: the constructor copies nothing.  Two ballot
    records constructed from one card hold the caller's card, both of them,
    and an assignment to [card.expires] by the caller shows in both. *)
Lemma constructor_shares_card :
  let '(card, first, second, h) := two_ballots_one_card in
  first <> second
  /\ Heap.card <$> Heap.ballots h !! first = Some card
  /\ Heap.card <$> Heap.ballots h !! second = Some card
  /\ ~ cards_unshared h
  /\ Heap.card_expires h first = Some 1700000000
  /\ Heap.card_expires (Heap.set_expires h card 0) first = Some 0
  /\ Heap.card_expires (Heap.set_expires h card 0) second = Some 0.
Proof.
  vm_compute. repeat split; try discriminate.
  intros Hun.
  apply (Hun 0%nat 1%nat
           (Heap.mkBallotObject sample_proposal (Buffer_alloc 16) 0%nat 0
              default_signature)
           (Heap.mkBallotObject sample_proposal (Buffer_alloc 16) 0%nat 1
              default_signature));
    (reflexivity || discriminate).
Qed.

(** C8, amended.  The constructor stores the reference it is given: the
    new ballot object holds the caller's card and no card is made.
    [deserialize] makes the card it stores: the card of the ballot it
    returns did not exist before the call, so no ballot object that existed
    before the call holds it, and nothing the caller had refers to it. *)
Theorem card_ownership (h : Heap.t) :
  (forall proposal_id ballot card sequence signature,
     let (r, h') :=
       Heap.new_BallotData h proposal_id ballot card sequence signature in
     Heap.ballots h !! r = None
     /\ Heap.card <$> Heap.ballots h' !! r = Some card
     /\ Heap.cards h' = Heap.cards h)
  /\ (forall buffer r h' buffer',
        Heap.closed h ->
        Heap.deserialize h buffer = Ok (r, h', buffer') ->
        exists o,
          Heap.ballots h' !! r = Some o
          /\ Heap.cards h !! Heap.card o = None
          /\ is_Some (Heap.cards h' !! Heap.card o)
          /\ (forall r' o',
                Heap.ballots h' !! r' = Some o' -> r' <> r ->
                Heap.ballots h !! r' = Some o'
                /\ Heap.card o' <> Heap.card o)
          /\ Heap.closed h').
Proof.
  split.
  - intros pid bal card sq sg. unfold Heap.new_BallotData.
    cbn [Heap.ballots Heap.cards]. split; [|split; [|reflexivity]].
    + apply not_elem_of_dom. apply is_fresh.
    + now rewrite lookup_insert_eq.
  - intros buffer r h' buffer' Hclosed E. unfold Heap.deserialize in E.
    destruct (BallotData.deserialize buffer) as [[b sb1]|e]; [|discriminate].
    cbn [bind] in E. unfold Heap.new_VoterCard, Heap.new_BallotData in E.
    cbn [Heap.ballots Heap.cards] in E. injection E as <- <- <-.
    set (c := fresh (dom (Heap.cards h))).
    assert (Hfresh : Heap.cards h !! c = None)
      by (apply not_elem_of_dom, is_fresh).
    eexists. cbn [Heap.ballots Heap.cards].
    split; [apply lookup_insert_eq|]. cbn [Heap.card].
    split; [exact Hfresh|]. split; [rewrite lookup_insert_eq; eauto|].
    split.
    + intros r' o' Ho' Hne. rewrite lookup_insert_ne in Ho' by congruence.
      split; [exact Ho'|]. intros Heq.
      destruct (Hclosed r' o' Ho') as [x Hx]. congruence.
    + intros r' o' Ho'. cbn [Heap.ballots Heap.cards] in *.
      destruct (decide (r' = fresh (dom (Heap.ballots h)))) as [->|Hne].
      * rewrite lookup_insert_eq in Ho'. injection Ho' as <-.
        cbn [Heap.card]. rewrite lookup_insert_eq. eauto.
      * rewrite lookup_insert_ne in Ho' by congruence.
        destruct (Hclosed r' o' Ho') as [x Hx].
        destruct (decide (Heap.card o' = c)) as [Hc|Hc]; [congruence|].
        rewrite lookup_insert_ne by congruence. eauto.
Qed.

Lemma empty_closed : Heap.closed Heap.empty.
Proof. intros r o Ho. discriminate. Qed.

Lemma new_VoterCard_closed (h : Heap.t) (validator_address address : PublicKey)
    (expires : Z) (signature : option Signature) :
  Heap.closed h ->
  Heap.closed
    (snd (Heap.new_VoterCard h validator_address address expires signature)).
Proof.
  intros Hc r o Ho. cbn [Heap.new_VoterCard snd Heap.ballots Heap.cards] in *.
  destruct (Hc r o Ho) as [x Hx].
  destruct (decide (Heap.card o = fresh (dom (Heap.cards h)))) as [->|Hne].
  - rewrite lookup_insert_eq. eauto.
  - rewrite lookup_insert_ne by congruence. eauto.
Qed.

Lemma new_BallotData_closed (h : Heap.t) (proposal_id : JSString)
    (ballot : Buffer) (card : Heap.ref) (sequence : Z)
    (signature : option Signature) :
  Heap.closed h -> is_Some (Heap.cards h !! card) ->
  Heap.closed
    (snd (Heap.new_BallotData h proposal_id ballot card sequence signature)).
Proof.
  intros Hc Hcard r o Ho.
  cbn [Heap.new_BallotData snd Heap.ballots Heap.cards] in *.
  destruct (decide (r = fresh (dom (Heap.ballots h)))) as [->|Hne].
  - rewrite lookup_insert_eq in Ho. injection Ho as <-. exact Hcard.
  - rewrite lookup_insert_ne in Ho by congruence. now apply (Hc r o).
Qed.

(** The store of [two_ballots_one_card]: the caller's card and the two
    ballots constructed from it. *)
Lemma two_ballots_one_card_closed :
  Heap.closed (snd two_ballots_one_card).
Proof.
  change (snd two_ballots_one_card)
    with (snd (Heap.new_BallotData
                 (snd (Heap.new_BallotData
                         (snd (Heap.new_VoterCard Heap.empty validator_key
                                 voting_key 1700000000 None))
                         sample_proposal (Buffer_alloc 16) 0%nat 0 None))
                 sample_proposal (Buffer_alloc 16) 0%nat 1 None)).
  apply new_BallotData_closed; [apply new_BallotData_closed|].
  - apply new_VoterCard_closed, empty_closed.
  - vm_compute. eauto.
  - vm_compute. eauto.
Qed.

(** On the store that holds the caller's card and the two ballots
    constructed from it: a third ballot constructed from the card holds it
    as well, and the ballot that [deserialize] makes holds a card that is
    none of the store's, while the two earlier ballots keep theirs. *)
Lemma card_ownership_witness :
  let h := snd two_ballots_one_card in
  let card : Heap.ref := 0%nat in
  let first : Heap.ref := 0%nat in
  let second : Heap.ref := 1%nat in
  Heap.closed h
  /\ Heap.card <$> Heap.ballots h !! first = Some card
  /\ Heap.card <$> Heap.ballots h !! second = Some card
  /\ is_Some (Heap.cards h !! card)
  /\ (let (r, h') :=
        Heap.new_BallotData h sample_proposal (Buffer_alloc 16) card 2 None in
      Heap.ballots h !! r = None
      /\ Heap.card <$> Heap.ballots h' !! r = Some card
      /\ Heap.cards h' = Heap.cards h)
  /\ exists r h' buffer',
       Heap.deserialize h
         (SmartBuffer_fromBuffer (BallotData_wire sample_ballot))
       = Ok (r, h', buffer')
       /\ exists o,
            Heap.ballots h' !! r = Some o
            /\ Heap.card o <> card
            /\ Heap.cards h !! Heap.card o = None
            /\ is_Some (Heap.cards h' !! Heap.card o)
            /\ (forall r' o',
                  Heap.ballots h' !! r' = Some o' -> r' <> r ->
                  Heap.ballots h !! r' = Some o'
                  /\ Heap.card o' <> Heap.card o)
            /\ Heap.card <$> Heap.ballots h' !! first = Some card
            /\ Heap.card <$> Heap.ballots h' !! second = Some card
            /\ r <> first /\ r <> second
            /\ Heap.closed h'.
Proof.
  intros h card first second.
  pose proof two_ballots_one_card_closed as Hclosed. fold h in Hclosed.
  assert (Hcard : is_Some (Heap.cards h !! card)) by (vm_compute; eauto).
  split; [exact Hclosed|].
  split; [vm_compute; reflexivity|]. split; [vm_compute; reflexivity|].
  split; [exact Hcard|].
  split.
  { exact (proj1 (card_ownership h) sample_proposal (Buffer_alloc 16) card 2
             None). }
  destruct (Heap.deserialize h
              (SmartBuffer_fromBuffer (BallotData_wire sample_ballot)))
    as [[[r h'] buffer']|e] eqn:E; [|vm_compute in E; discriminate].
  exists r, h', buffer'. split; [reflexivity|].
  destruct (proj2 (card_ownership h) _ r h' buffer' Hclosed E)
    as (o & Ho & Hnew & Hthere & Hothers & Hclosed').
  exists o. split; [exact Ho|].
  split.
  { intros Heq. rewrite Heq in Hnew. destruct Hcard as [c Hc].
    rewrite Hc in Hnew. discriminate. }
  split; [exact Hnew|]. split; [exact Hthere|]. split; [exact Hothers|].
  vm_compute in E. injection E as <- <- _.
  split; [vm_compute; reflexivity|]. split; [vm_compute; reflexivity|].
  split; [discriminate|]. split; [discriminate|exact Hclosed'].
Defined.

(** * Further properties of the code *)

(** ** What the readers return *)

Lemma le_value_bound (bs : Buffer) :
  0 <= le_value bs < 256 ^ Z.of_nat (length bs).
Proof.
  induction bs as [|b r IH]; [simpl; lia|].
  cbn [le_value length]. rewrite Nat2Z.inj_succ, Z.pow_succ_r by lia.
  pose proof (Z_of_byte_range b). lia.
Qed.

Lemma Utils_readBuffer_inv (sb sb' : SmartBuffer) (n : nat) (xs : Buffer) :
  Utils_readBuffer sb (Z.of_nat n) = Ok (xs, sb') ->
  length xs = n /\ unread sb = xs ++ unread sb'.
Proof.
  unfold Utils_readBuffer, readBuffer. rewrite remaining_unread.
  destruct (Z.ltb_spec (Z.of_nat (length (unread sb))) (Z.of_nat n));
    [discriminate|].
  intros E. injection E as <- <-. rewrite Nat2Z.id, unread_advance. split.
  - rewrite length_firstn. lia.
  - symmetry. apply firstn_skipn.
Qed.

Lemma toJSBI_inv (sb sb' : SmartBuffer) (v : Z) :
  VarInt.toJSBI sb = Ok (v, sb') ->
  0 <= v < 2 ^ 64
  /\ exists bs, unread sb = bs ++ unread sb' /\ (1 <= length bs <= 9)%nat.
Proof.
  unfold VarInt.toJSBI. intros E.
  destruct (VarInt.readChecked 1 sb) as [[first sb1]|e] eqn:E1;
    [|discriminate].
  cbn [bind] in E.
  destruct (readChecked_inv _ _ _ _ E1) as (bs1 & Hu1 & Hl1 & Hv1).
  pose proof (le_value_bound bs1) as Hb1. rewrite Hl1 in Hb1.
  change (256 ^ Z.of_nat 1) with 256 in Hb1.
  assert (Hw : forall w, (w <= 8)%nat ->
            VarInt.readChecked w sb1 = Ok (v, sb') ->
            0 <= v < 2 ^ 64
            /\ exists bs, unread sb = bs ++ unread sb'
                          /\ (1 <= length bs <= 9)%nat).
  { intros w Hle Ew.
    destruct (readChecked_inv _ _ _ _ Ew) as (bs2 & Hu2 & Hl2 & Hv2).
    pose proof (le_value_bound bs2) as Hb2. rewrite Hl2 in Hb2. split.
    - subst v. split; [lia|].
      apply Z.lt_le_trans with (256 ^ Z.of_nat w); [lia|].
      change (2 ^ 64) with (256 ^ 8). apply Z.pow_le_mono_r; lia.
    - exists (bs1 ++ bs2). split.
      + rewrite Hu1, Hu2. apply app_assoc.
      + rewrite length_app. lia. }
  destruct (Z.leb_spec first 0xFC).
  - injection E as <- <-. split; [lia|].
    exists bs1. split; [exact Hu1|lia].
  - destruct (Z.eqb_spec first 0xFD); [apply (Hw 2%nat); [lia|exact E]|].
    destruct (Z.eqb_spec first 0xFE); [apply (Hw 4%nat); [lia|exact E]|].
    apply (Hw 8%nat); [lia|exact E].
Qed.

Lemma toNumber_inv (sb sb' : SmartBuffer) (v : Z) :
  VarInt.toNumber sb = Ok (v, sb') ->
  0 <= v < 2 ^ 64
  /\ exists bs, unread sb = bs ++ unread sb' /\ (1 <= length bs <= 9)%nat.
Proof. intros E. apply toJSBI_inv. now apply toNumber_Ok_toJSBI. Qed.

Lemma VoterCard_deserialize_valid (sb sb' : SmartBuffer) (c : VoterCard.t) :
  VoterCard.deserialize sb = Ok (c, sb') -> VoterCard.valid c.
Proof.
  unfold VoterCard.deserialize. intros E.
  destruct (Utils_readBuffer sb (Z.of_nat SIZE_OF_PUBLIC_KEY))
    as [[va sb1]|e] eqn:E1; [|discriminate]. cbn [bind] in E.
  destruct (Utils_readBuffer sb1 (Z.of_nat SIZE_OF_PUBLIC_KEY))
    as [[ad sb2]|e] eqn:E2; [|discriminate]. cbn [bind] in E.
  destruct (VarInt.toJSBI sb2) as [[ex sb3]|e] eqn:E3; [|discriminate].
  cbn [bind] in E.
  destruct (Utils_readBuffer sb3 (Z.of_nat Signature_Width))
    as [[sg sb4]|e] eqn:E4; [|discriminate]. cbn [bind] in E.
  injection E as <- <-.
  apply Utils_readBuffer_inv in E1, E2, E4. apply toJSBI_inv in E3.
  unfold VoterCard.valid. cbn. intuition.
Qed.

(** ** [VoterCard] *)

(** X1. A voter card with 32-octet keys, an unsigned 64-bit expiry and a
    64-octet signature survives [serialize] followed by [deserialize]:
    the same card comes back, and octets that follow it in the buffer are
    left unread. *)
Theorem VoterCard_serialize_deserialize (c : VoterCard.t) (rest : Buffer) :
  VoterCard.valid c ->
  exists wire,
    VoterCard.serialize c SmartBuffer_new = Ok wire
    /\ exists buffer',
         VoterCard.deserialize
           (SmartBuffer_fromBuffer (toBuffer wire ++ rest))
         = Ok (c, buffer')
         /\ unread buffer' = rest.
Proof.
  intros Hv. exists (writeBuffer (VoterCard_wire c) SmartBuffer_new).
  split; [apply VoterCard_serialize_wire, Hv|].
  apply VoterCard_deserialize_app; [exact Hv|reflexivity].
Qed.

Lemma VoterCard_serialize_deserialize_witness :
  VoterCard.valid sample_card
  /\ exists wire,
       VoterCard.serialize sample_card SmartBuffer_new = Ok wire
       /\ exists buffer',
            VoterCard.deserialize
              (SmartBuffer_fromBuffer (toBuffer wire ++ [Byte.x2a]))
            = Ok (sample_card, buffer')
            /\ unread buffer' = [Byte.x2a].
Proof.
  split; [apply sample_card_valid|].
  apply (VoterCard_serialize_deserialize sample_card [Byte.x2a]).
  apply sample_card_valid.
Defined.

(** X2. Whatever [VoterCard.deserialize] returns has 32-octet keys, a
    64-octet signature and an expiry below 2^64, whatever the input octets
    were; so it can be serialized again, and reading that back gives the
    same card. *)
Theorem VoterCard_deserialize_returns_valid
    (buffer buffer' : SmartBuffer) (c : VoterCard.t) :
  VoterCard.deserialize buffer = Ok (c, buffer') ->
  length (pk_data (VoterCard.validator_address c)) = 32%nat
  /\ length (pk_data (VoterCard.address c)) = 32%nat
  /\ 0 <= VoterCard.expires c < 2 ^ 64
  /\ length (sig_data (VoterCard.signature c)) = 64%nat
  /\ exists wire buffer'',
       VoterCard.serialize c SmartBuffer_new = Ok wire
       /\ VoterCard.deserialize wire = Ok (c, buffer'').
Proof.
  intros E. pose proof (VoterCard_deserialize_valid _ _ _ E) as Hv.
  destruct (VoterCard_roundtrip c Hv) as (wire & Hs & sb'' & Hd & _).
  destruct Hv as (Hva & Had & He & Hsig).
  split; [exact Hva|]. split; [exact Had|]. split; [exact He|].
  split; [exact Hsig|]. eauto.
Qed.

(** 153 octets 0xFE: a card and twenty octets more. *)
Lemma VoterCard_deserialize_returns_valid_witness :
  let buffer := SmartBuffer_fromBuffer (repeat Byte.xfe 153) in
  exists c buffer',
    VoterCard.deserialize buffer = Ok (c, buffer')
    /\ VoterCard.expires c = 0xFEFEFEFE
    /\ remaining buffer' = 20
    /\ exists wire buffer'',
         VoterCard.serialize c SmartBuffer_new = Ok wire
         /\ VoterCard.deserialize wire = Ok (c, buffer'').
Proof.
  intros buffer.
  destruct (VoterCard.deserialize buffer) as [[c buffer']|e] eqn:E;
    [|vm_compute in E; discriminate].
  exists c, buffer'. split; [reflexivity|].
  destruct (VoterCard_deserialize_returns_valid buffer buffer' c E)
    as (_ & _ & _ & _ & Hagain).
  vm_compute in E. injection E as <- <-.
  split; [reflexivity|]. split; [reflexivity|]. exact Hagain.
Defined.

Lemma Utils_readBuffer_cases (sb : SmartBuffer) (n : nat) :
  ((length (unread sb) < n)%nat
   /\ Utils_readBuffer sb (Z.of_nat n) = Err UnderrunError)
  \/ ((n <= length (unread sb))%nat
      /\ Utils_readBuffer sb (Z.of_nat n)
         = Ok (firstn n (unread sb), advance n sb)).
Proof.
  unfold Utils_readBuffer, readBuffer. rewrite remaining_unread.
  destruct (Z.ltb_spec (Z.of_nat (length (unread sb))) (Z.of_nat n)).
  - left. split; [lia|reflexivity].
  - right. split; [lia|]. now rewrite Nat2Z.id.
Qed.

Lemma toJSBI_cases (sb : SmartBuffer) :
  ((length (unread sb) < 9)%nat
   /\ VarInt.toJSBI sb = Err UnderrunError)
  \/ exists v k,
       (1 <= k <= 9)%nat /\ (k <= length (unread sb))%nat
       /\ VarInt.toJSBI sb = Ok (v, advance k sb).
Proof.
  assert (Hrc : forall w s,
            ((length (unread s) < w)%nat
             /\ VarInt.readChecked w s = Err UnderrunError)
            \/ ((w <= length (unread s))%nat
                /\ VarInt.readChecked w s
                   = Ok (le_value (firstn w (unread s)), advance w s))).
  { intros w s. unfold VarInt.readChecked, readUIntLE, readBuffer.
    rewrite remaining_unread.
    destruct (Z.ltb_spec (Z.of_nat (length (unread s))) (Z.of_nat w)).
    - left. split; [lia|reflexivity].
    - right. split; [lia|reflexivity]. }
  assert (Hadv : forall a b, advance b (advance a sb) = advance (a + b) sb
            \/ (length (unread sb) < a)%nat).
  { intros a b.
    destruct (Nat.lt_ge_cases (length (unread sb)) a) as [Hlt|Hge];
      [right; exact Hlt|left].
    unfold unread in Hge. rewrite length_skipn in Hge.
    unfold advance. cbn [sb_data readOffset]. f_equal. lia. }
  unfold VarInt.toJSBI.
  destruct (Hrc 1%nat sb) as [[Hlt ->]|[Hge ->]]; cbn [bind].
  { left. split; [lia|reflexivity]. }
  set (first := le_value (firstn 1 (unread sb))).
  destruct (Z.leb_spec first 0xFC).
  { right. exists first, 1%nat. repeat split; (lia || reflexivity). }
  assert (Hmark : forall w, (1 <= w <= 8)%nat ->
            ((length (unread sb) < 9)%nat
             /\ VarInt.readChecked w (advance 1 sb) = Err UnderrunError)
            \/ exists v k,
                 (1 <= k <= 9)%nat /\ (k <= length (unread sb))%nat
                 /\ VarInt.readChecked w (advance 1 sb)
                    = Ok (v, advance k sb)).
  { intros w Hw. pose proof (unread_advance 1 sb) as Hu1.
    destruct (Hrc w (advance 1 sb)) as [[Hlt' E]|[Hge' E]];
      rewrite Hu1, length_skipn in *.
    - left. split; [lia|exact E].
    - right. eexists _, (1 + w)%nat. split; [lia|]. split; [lia|].
      rewrite E. destruct (Hadv 1%nat w) as [->|Hbad]; [reflexivity|lia]. }
  destruct (Z.eqb_spec first 0xFD); [apply Hmark; lia|].
  destruct (Z.eqb_spec first 0xFE); [apply Hmark; lia|].
  apply Hmark; lia.
Qed.

Lemma length_unread_advance (k : nat) (sb : SmartBuffer) :
  length (unread (advance k sb)) = (length (unread sb) - k)%nat.
Proof. now rewrite unread_advance, length_skipn. Qed.

(** X3. [VoterCard.deserialize] checks nothing but the amount of data: on
    every buffer with at least 137 unread octets it returns a card, whose
    validator key is the first 32 octets and whose voting key is the next
    32, whatever they are; and when it fails, it fails with
    [UnderrunError] and fewer than 137 octets were unread. *)
Theorem VoterCard_deserialize_checks_only_length (buffer : SmartBuffer) :
  (137 <= remaining buffer ->
   exists c buffer',
     VoterCard.deserialize buffer = Ok (c, buffer')
     /\ pk_data (VoterCard.validator_address c) = firstn 32 (unread buffer)
     /\ pk_data (VoterCard.address c)
        = firstn 32 (skipn 32 (unread buffer)))
  /\ (forall e,
        VoterCard.deserialize buffer = Err e ->
        e = UnderrunError /\ remaining buffer < 137).
Proof.
  rewrite remaining_unread.
  unfold VoterCard.deserialize.
  change SIZE_OF_PUBLIC_KEY with 32%nat. change Signature_Width with 64%nat.
  destruct (Utils_readBuffer_cases buffer 32) as [[H1 ->]|[H1 ->]];
    cbn [bind].
  { split; [lia|]. intros e E. injection E as <-. split; [reflexivity|lia]. }
  pose proof (length_unread_advance 32 buffer) as L1.
  destruct (Utils_readBuffer_cases (advance 32 buffer) 32)
    as [[H2 ->]|[H2 ->]]; cbn [bind].
  { split; [lia|]. intros e E. injection E as <-. split; [reflexivity|lia]. }
  pose proof (length_unread_advance 32 (advance 32 buffer)) as L2.
  destruct (toJSBI_cases (advance 32 (advance 32 buffer)))
    as [[H3 ->]|(v & k & Hk & H3 & ->)]; cbn [bind].
  { split; [lia|]. intros e E. injection E as <-. split; [reflexivity|lia]. }
  pose proof (length_unread_advance k (advance 32 (advance 32 buffer))) as L3.
  destruct (Utils_readBuffer_cases
              (advance k (advance 32 (advance 32 buffer))) 64)
    as [[H4 ->]|[H4 ->]]; cbn [bind].
  { split; [lia|]. intros e E. injection E as <-. split; [reflexivity|lia]. }
  split; [|intros e E; discriminate].
  intros _. eexists _, _. split; [reflexivity|].
  cbn [VoterCard.new VoterCard.validator_address VoterCard.address pk_data].
  split; [reflexivity|]. now rewrite unread_advance.
Qed.

Lemma VoterCard_deserialize_checks_only_length_witness :
  let buffer := SmartBuffer_fromBuffer (repeat Byte.xff 137) in
  137 <= remaining buffer
  /\ exists c buffer',
       VoterCard.deserialize buffer = Ok (c, buffer')
       /\ pk_data (VoterCard.validator_address c) = repeat Byte.xff 32
       /\ pk_data (VoterCard.address c) = repeat Byte.xff 32.
Proof.
  intros buffer.
  assert (H : 137 <= remaining buffer) by (vm_compute; discriminate).
  split; [exact H|].
  destruct (proj1 (VoterCard_deserialize_checks_only_length buffer) H)
    as (c & buffer' & E & Hva & Had).
  exists c, buffer'. split; [exact E|]. split.
  - rewrite Hva. reflexivity.
  - rewrite Had. reflexivity.
Defined.

Lemma le_bytes_inj (n : nat) (v w : Z) :
  0 <= v < 256 ^ Z.of_nat n -> 0 <= w < 256 ^ Z.of_nat n ->
  le_bytes n v = le_bytes n w -> v = w.
Proof.
  intros Hv Hw E. rewrite <- (le_value_le_bytes n v Hv).
  rewrite <- (le_value_le_bytes n w Hw). now rewrite E.
Qed.

Lemma VoterCard_hash_input_inj (c1 c2 : VoterCard.t) :
  VoterCard.valid c1 -> VoterCard.valid c2 ->
  VoterCard_hash_input c1 = VoterCard_hash_input c2 ->
  VoterCard.validator_address c1 = VoterCard.validator_address c2
  /\ VoterCard.address c1 = VoterCard.address c2
  /\ VoterCard.expires c1 = VoterCard.expires c2.
Proof.
  intros (Hva1 & Had1 & He1 & _) (Hva2 & Had2 & He2 & _) E.
  unfold VoterCard_hash_input in E.
  apply app_inj_1 in E; [|congruence]. destruct E as [Eva E].
  apply app_inj_1 in E; [|congruence]. destruct E as [Ead E].
  apply le_bytes_inj in E;
    try (change (256 ^ Z.of_nat 8) with (2 ^ 64); assumption).
  destruct (VoterCard.validator_address c1), (VoterCard.validator_address c2),
    (VoterCard.address c1), (VoterCard.address c2).
  cbn in Eva, Ead. subst. auto.
Qed.

Lemma length_VoterCard_hash_input (c : VoterCard.t) :
  VoterCard.valid c -> length (VoterCard_hash_input c) = 72%nat.
Proof.
  intros (Hva & Had & _ & _). unfold VoterCard_hash_input.
  rewrite !length_app, length_le_bytes, Hva, Had. reflexivity.
Qed.

(** X4. For voter cards with the field widths of the data model, the
    stream that [computeHash] collects is 72 octets long and determines
    validator_address, address and expires: two cards that collect the same
    stream differ at most in their signature. *)
Theorem VoterCard_computeHash_injective (c1 c2 : VoterCard.t)
    (buffer : SmartBuffer) :
  VoterCard.valid c1 -> VoterCard.valid c2 ->
  VoterCard.computeHash c1 buffer = VoterCard.computeHash c2 buffer ->
  length (toBuffer (VoterCard.computeHash c1 buffer))
  = (length (toBuffer buffer) + 72)%nat
  /\ VoterCard.validator_address c1 = VoterCard.validator_address c2
  /\ VoterCard.address c1 = VoterCard.address c2
  /\ VoterCard.expires c1 = VoterCard.expires c2.
Proof.
  intros Hv1 Hv2 E. rewrite !VoterCard_computeHash_input in *. split.
  - unfold toBuffer, writeBuffer. cbn [sb_data].
    now rewrite length_app, length_VoterCard_hash_input.
  - apply VoterCard_hash_input_inj; try assumption.
    apply (f_equal sb_data) in E. unfold writeBuffer in E. cbn [sb_data] in E.
    now apply app_inv_head in E.
Qed.

Lemma VoterCard_computeHash_injective_witness :
  let c2 := VoterCard.with_signature sample_card
              (mkSignature (repeat Byte.xff 64)) in
  VoterCard.valid sample_card /\ VoterCard.valid c2
  /\ length (toBuffer (VoterCard.computeHash sample_card SmartBuffer_new))
     = 72%nat
  /\ VoterCard.expires sample_card = VoterCard.expires c2.
Proof.
  intros c2.
  assert (Hv2 : VoterCard.valid c2)
    by (unfold VoterCard.valid; cbn; repeat split; lia).
  destruct (VoterCard_computeHash_injective sample_card c2 SmartBuffer_new
              sample_card_valid Hv2 eq_refl) as (Hlen & _ & _ & He).
  split; [apply sample_card_valid|]. split; [exact Hv2|].
  split; [exact Hlen|exact He].
Defined.

(** X5. [VoterCard.serialize] of a card with the field widths of the data
    model writes between 129 and 137 octets, after what the buffer held,
    and leaves the read cursor where it was. *)
Theorem VoterCard_serialize_size (c : VoterCard.t) (buffer : SmartBuffer) :
  VoterCard.valid c ->
  exists written,
    VoterCard.serialize c buffer
    = Ok (mkSmartBuffer (toBuffer buffer ++ written) (readOffset buffer))
    /\ (129 <= length written <= 137)%nat.
Proof.
  intros (Hva & Had & He & Hsig). exists (VoterCard_wire c). split.
  - now rewrite VoterCard_serialize_wire.
  - unfold VoterCard_wire. rewrite !length_app, Hva, Had, Hsig.
    pose proof (length_varint_bytes (VoterCard.expires c)) as Hl.
    unfold SIZE_OF_PUBLIC_KEY, Signature_Width. cbn in Hl. lia.
Qed.

Lemma VoterCard_serialize_size_witness :
  VoterCard.valid sample_card
  /\ exists written,
       VoterCard.serialize sample_card SmartBuffer_new
       = Ok (mkSmartBuffer written 0)
       /\ length written = 133%nat.
Proof.
  split; [apply sample_card_valid|].
  destruct (VoterCard_serialize_size sample_card SmartBuffer_new
              sample_card_valid) as (written & E & _).
  exists written. split; [exact E|].
  vm_compute in E. injection E as <-. reflexivity.
Defined.

(** ** [BallotData]: the hash input and [verify] *)

Lemma BallotData_hash_input_split (b1 b2 : BallotData.t) :
  VoterCard.valid (BallotData.card b1) ->
  VoterCard.valid (BallotData.card b2) ->
  0 <= BallotData.sequence b1 < 2 ^ 32 ->
  0 <= BallotData.sequence b2 < 2 ^ 32 ->
  BallotData_hash_input b1 = BallotData_hash_input b2 ->
  Buffer_from (BallotData.proposal_id b1) ++ BallotData.ballot b1
  = Buffer_from (BallotData.proposal_id b2) ++ BallotData.ballot b2
  /\ VoterCard_hash_input (BallotData.card b1)
     = VoterCard_hash_input (BallotData.card b2)
  /\ BallotData.sequence b1 = BallotData.sequence b2.
Proof.
  intros Hc1 Hc2 Hs1 Hs2 E. unfold BallotData_hash_input in E.
  rewrite !app_assoc in E.
  apply app_inj_2 in E; [|now rewrite !length_le_bytes].
  destruct E as [E Es].
  apply app_inj_2 in E; [|now rewrite !length_VoterCard_hash_input].
  destruct E as [E Ec]. split; [exact E|]. split; [exact Ec|].
  apply le_bytes_inj in Es;
    try (change (256 ^ Z.of_nat 4) with (2 ^ 32); assumption).
Qed.

(** X6. Apart from where proposal_id ends and ballot begins, the hash
    input of a ballot record is unambiguous: two records (with cards of the
    data model's field widths and unsigned 32-bit sequence numbers) that
    collect the same stream have the same sequence number, the same
    validator_address, address and expires in their cards, and the same
    octets in proposal_id followed by ballot. *)
Theorem BallotData_computeHash_determines (b1 b2 : BallotData.t)
    (buffer stream : SmartBuffer) :
  VoterCard.valid (BallotData.card b1) ->
  VoterCard.valid (BallotData.card b2) ->
  0 <= BallotData.sequence b1 < 2 ^ 32 ->
  0 <= BallotData.sequence b2 < 2 ^ 32 ->
  BallotData.computeHash b1 buffer = Ok stream ->
  BallotData.computeHash b2 buffer = Ok stream ->
  BallotData.sequence b1 = BallotData.sequence b2
  /\ VoterCard.validator_address (BallotData.card b1)
     = VoterCard.validator_address (BallotData.card b2)
  /\ VoterCard.address (BallotData.card b1)
     = VoterCard.address (BallotData.card b2)
  /\ VoterCard.expires (BallotData.card b1)
     = VoterCard.expires (BallotData.card b2)
  /\ Buffer_from (BallotData.proposal_id b1) ++ BallotData.ballot b1
     = Buffer_from (BallotData.proposal_id b2) ++ BallotData.ballot b2.
Proof.
  intros Hc1 Hc2 Hs1 Hs2 E1 E2.
  rewrite BallotData_computeHash_input in E1, E2 by assumption.
  rewrite <- E2 in E1. injection E1 as E. apply app_inv_head in E.
  destruct (BallotData_hash_input_split b1 b2 Hc1 Hc2 Hs1 Hs2 E)
    as (Epb & Ec & Es).
  destruct (VoterCard_hash_input_inj _ _ Hc1 Hc2 Ec) as (Eva & Ead & Ee).
  auto.
Qed.

Lemma BallotData_computeHash_determines_witness :
  let b1 := BallotData.new [65; 66] [] sample_card 0 None in
  let b2 := BallotData.new [65] [Byte.x42] sample_card 0
              (Some (mkSignature (repeat Byte.xff 64))) in
  exists stream,
    BallotData.computeHash b1 SmartBuffer_new = Ok stream
    /\ BallotData.computeHash b2 SmartBuffer_new = Ok stream
    /\ BallotData.sequence b1 = BallotData.sequence b2
    /\ Buffer_from (BallotData.proposal_id b1) ++ BallotData.ballot b1
       = Buffer_from (BallotData.proposal_id b2) ++ BallotData.ballot b2.
Proof.
  intros b1 b2.
  assert (Hs : 0 <= 0 < 2 ^ 32) by lia.
  destruct (BallotData.computeHash b1 SmartBuffer_new) as [stream|e] eqn:E1;
    [|vm_compute in E1; discriminate].
  assert (E2 : BallotData.computeHash b2 SmartBuffer_new = Ok stream)
    by (rewrite <- E1; reflexivity).
  exists stream. split; [reflexivity|]. split; [exact E2|].
  destruct (BallotData_computeHash_determines b1 b2 SmartBuffer_new stream
              sample_card_valid sample_card_valid Hs Hs E1 E2)
    as (Hseq & _ & _ & _ & Hpb).
  split; [exact Hseq|exact Hpb].
Defined.

(** X7. [BallotData.computeHash] raises [RangeError] exactly when sequence
    is not an unsigned 32-bit number, and then [verify] raises it too,
    whatever the signature: it does not answer [false]. *)
Theorem BallotData_sequence_out_of_range `{Primitives} (b : BallotData.t)
    (buffer : SmartBuffer) :
  (BallotData.computeHash b buffer = Err RangeError
   <-> ~ 0 <= BallotData.sequence b < 2 ^ 32)
  /\ (~ 0 <= BallotData.sequence b < 2 ^ 32 ->
      BallotData.verify b = Err RangeError).
Proof.
  assert (Hout : ~ 0 <= BallotData.sequence b < 2 ^ 32 ->
            forall sb, BallotData.computeHash b sb = Err RangeError).
  { intros Hn sb.
    unfold BallotData.computeHash, writeUInt32LE, writeUIntLE.
    change (256 ^ Z.of_nat 4) with (2 ^ 32).
    destruct (Z.leb_spec 0 (BallotData.sequence b)); [|reflexivity].
    destruct (Z.ltb_spec (BallotData.sequence b) (2 ^ 32)); [lia|].
    reflexivity. }
  split; [split|].
  - intros E Hin. rewrite BallotData_computeHash_input in E by exact Hin.
    discriminate.
  - intros Hn. now apply Hout.
  - intros Hn. unfold BallotData.verify, hashFull. now rewrite Hout.
Qed.

Lemma BallotData_sequence_out_of_range_witness :
  let b := BallotData.new sample_proposal (Buffer_alloc 16) sample_card
             (2 ^ 32) None in
  ~ 0 <= BallotData.sequence b < 2 ^ 32
  /\ BallotData.computeHash b SmartBuffer_new = Err RangeError
  /\ @BallotData.verify toy_primitives b = Err RangeError.
Proof.
  intros b.
  assert (Hn : ~ 0 <= BallotData.sequence b < 2 ^ 32) by (cbn; lia).
  destruct (@BallotData_sequence_out_of_range toy_primitives b
              SmartBuffer_new) as [Hiff Hverify].
  split; [exact Hn|]. split; [apply Hiff, Hn|apply Hverify, Hn].
Defined.

(** X8. [BallotData.verify] never looks at the card's own signature:
    with any other signature in the card the result is the same.  Whether
    the card itself is authentic is for [VoterCard.verify] to say. *)
Theorem BallotData_verify_ignores_card_signature `{Primitives}
    (b : BallotData.t) (s : Signature) :
  BallotData.verify
    (BallotData.mk (BallotData.proposal_id b) (BallotData.ballot b)
       (VoterCard.with_signature (BallotData.card b) s)
       (BallotData.sequence b) (BallotData.signature b))
  = BallotData.verify b.
Proof.
  unfold BallotData.verify, hashFull, BallotData.computeHash.
  cbn [BallotData.proposal_id BallotData.ballot BallotData.card
       BallotData.sequence BallotData.signature].
  rewrite !VoterCard_computeHash_input. reflexivity.
Qed.

(** With the sample primitives: the signed ballot is accepted although
    its card (which carries the zero signature) is not. *)
Example ballot_accepted_card_refused :
  @BallotData.verify toy_primitives signed_ballot = Ok true
  /\ @VoterCard.verify toy_primitives (BallotData.card signed_ballot)
     = Ok false.
Proof. split; vm_compute; reflexivity. Qed.

(** ** [BallotData] on the wire, further *)

(** X9. Records written one after the other into one buffer are read back
    one after the other: [serialize] adds its record behind what the
    buffer holds, and [deserialize] stops reading where its record ends. *)
Theorem BallotData_two_in_a_row (b1 b2 : BallotData.t) :
  BallotData.valid b1 -> BallotData.valid b2 ->
  exists s1 s2 s3 s4,
    BallotData.serialize b1 SmartBuffer_new = Ok s1
    /\ BallotData.serialize b2 s1 = Ok s2
    /\ BallotData.deserialize s2 = Ok (b1, s3)
    /\ BallotData.deserialize s3 = Ok (b2, s4)
    /\ remaining s4 = 0.
Proof.
  intros Hv1 Hv2.
  set (s1 := writeBuffer (BallotData_wire b1) SmartBuffer_new).
  set (s2 := writeBuffer (BallotData_wire b2) s1).
  destruct (BallotData_deserialize_app b1 (BallotData_wire b2) s2 Hv1)
    as (s3 & Hd1 & Hu3); [reflexivity|].
  destruct (BallotData_deserialize_app b2 [] s3 Hv2) as (s4 & Hd2 & Hu4).
  { rewrite Hu3. now rewrite app_nil_r. }
  exists s1, s2, s3, s4.
  split; [now apply BallotData_serialize_wire|].
  split; [now apply BallotData_serialize_wire|].
  split; [exact Hd1|]. split; [exact Hd2|].
  rewrite remaining_unread, Hu4. reflexivity.
Qed.

Lemma BallotData_two_in_a_row_witness :
  BallotData.valid sample_ballot /\ BallotData.valid signed_ballot
  /\ exists s1 s2 s3 s4,
       BallotData.serialize sample_ballot SmartBuffer_new = Ok s1
       /\ BallotData.serialize signed_ballot s1 = Ok s2
       /\ BallotData.deserialize s2 = Ok (sample_ballot, s3)
       /\ BallotData.deserialize s3 = Ok (signed_ballot, s4)
       /\ remaining s4 = 0.
Proof.
  assert (Hv : BallotData.valid signed_ballot).
  { destruct sample_ballot_valid as (H1 & H2 & H3 & H4 & H5 & _).
    unfold BallotData.valid. repeat split; try assumption; cbn; lia. }
  split; [apply sample_ballot_valid|]. split; [exact Hv|].
  apply (BallotData_two_in_a_row sample_ballot signed_ballot
           sample_ballot_valid Hv).
Defined.

Lemma length_varint_bytes_u32 (n : Z) :
  n < 2 ^ 32 -> (1 <= length (varint_bytes n) <= 5)%nat.
Proof.
  intros Hn. unfold varint_bytes.
  destruct (Z.leb_spec n 0xFC); [cbn; lia|].
  destruct (Z.leb_spec n 0xFFFF); [cbn; lia|].
  destruct (Z.leb_spec n 0xFFFFFFFF); [cbn; lia|lia].
Qed.

(** X10. [BallotData.serialize] of a valid record writes, behind what the
    buffer held, the octets of proposal_id and ballot and between 205 and
    225 octets more.  The size is not the constant [WIDTH]: with more than
    61 octets in proposal_id and ballot together the record is longer than
    [WIDTH]. *)
Theorem BallotData_serialize_size (b : BallotData.t) (buffer : SmartBuffer) :
  BallotData.valid b ->
  exists written,
    BallotData.serialize b buffer
    = Ok (mkSmartBuffer (toBuffer buffer ++ written) (readOffset buffer))
    /\ let payload :=
         (length (Buffer_from (BallotData.proposal_id b))
          + length (BallotData.ballot b))%nat in
       (payload + 205 <= length written <= payload + 225)%nat
       /\ ((61 < payload)%nat -> BallotData.WIDTH < Z.of_nat (length written)).
Proof.
  intros Hv. exists (BallotData_wire b). split.
  { now rewrite BallotData_serialize_wire. }
  destruct Hv as (_ & Hpid & Hbal & (Hva & Had & He & Hcs) & Hseq & Hsig).
  assert (Hlen : (length (Buffer_from (BallotData.proposal_id b))
                  + length (BallotData.ballot b) + 205
                  <= length (BallotData_wire b)
                  <= length (Buffer_from (BallotData.proposal_id b))
                     + length (BallotData.ballot b) + 225)%nat).
  { unfold BallotData_wire, prefixed, VoterCard_wire.
    rewrite !length_app, Hva, Had, Hcs, Hsig, length_Buffer_from_HEADER.
    unfold SIZE_OF_PUBLIC_KEY, Signature_Width.
    pose proof (length_varint_bytes_u32 _ Hpid).
    pose proof (length_varint_bytes_u32 _ Hbal).
    pose proof (length_varint_bytes_u32 (BallotData.sequence b)
                  ltac:(lia)).
    pose proof (length_varint_bytes (VoterCard.expires (BallotData.card b)))
      as Hl.
    change (length (varint_bytes (Z.of_nat 8))) with 1%nat.
    cbn in Hl. lia. }
  cbv zeta. split; [exact Hlen|]. unfold BallotData.WIDTH. lia.
Qed.

Lemma BallotData_serialize_size_witness :
  BallotData.valid sample_ballot
  /\ exists written,
       BallotData.serialize sample_ballot SmartBuffer_new
       = Ok (mkSmartBuffer written 0)
       /\ length written = 233%nat.
Proof.
  split; [apply sample_ballot_valid|].
  destruct (BallotData_serialize_size sample_ballot SmartBuffer_new
              sample_ballot_valid) as (written & E & _).
  exists written. split; [exact E|].
  vm_compute in E. injection E as <-. reflexivity.
Defined.

(** ** What [deserialize] makes of arbitrary octets *)

Lemma well_formed_cons_scalar (u : Z) (rest : JSString) :
  0 <= u < 0xD800 \/ 0xE000 <= u < 0x10000 ->
  well_formed rest = true -> well_formed (u :: rest) = true.
Proof.
  intros Hu Hr. cbn [well_formed]. unfold is_high_surrogate, is_low_surrogate.
  rewrite Hr.
  destruct (Z.leb_spec 0xD800 u), (Z.leb_spec u 0xDBFF),
    (Z.leb_spec 0xDC00 u), (Z.leb_spec u 0xDFFF),
    (Z.leb_spec 0 u), (Z.ltb_spec u 0x10000); cbn; (reflexivity || lia).
Qed.

Lemma well_formed_cons_pair (hi lo : Z) (rest : JSString) :
  0xD800 <= hi <= 0xDBFF -> 0xDC00 <= lo <= 0xDFFF ->
  well_formed rest = true -> well_formed (hi :: lo :: rest) = true.
Proof.
  intros Hhi Hlo Hr. cbn [well_formed].
  unfold is_high_surrogate, is_low_surrogate. rewrite Hr.
  destruct (Z.leb_spec 0xD800 hi), (Z.leb_spec hi 0xDBFF),
    (Z.leb_spec 0xDC00 lo), (Z.leb_spec lo 0xDFFF); cbn;
    (reflexivity || lia).
Qed.

(** What one decoding step yields is a Unicode scalar value. *)
Lemma decode_step_well_formed (b0 : byte) (r0 : Buffer) (rest : JSString) :
  well_formed rest = true ->
  well_formed (fst (decode_step b0 r0) ++ rest) = true.
Proof.
  intros Hr. pose proof (Z_of_byte_range b0) as H0.
  unfold decode_step, utf16_of_code_point.
  destruct (Z.ltb_spec (Z_of_byte b0) 0x80).
  { apply well_formed_cons_scalar; [lia|exact Hr]. }
  branches; cbn [fst app]; bool_facts;
    first
      [ apply well_formed_cons_scalar; [unfold REPLACEMENT; div_lia|exact Hr]
      | apply well_formed_cons_pair; [div_lia|div_lia|exact Hr]
      | exfalso; div_lia ].
Qed.

Lemma Buffer_toString_well_formed (bs : Buffer) :
  well_formed (Buffer_toString bs) = true.
Proof.
  remember (length bs) as n eqn:Hn.
  assert (Hlen : (length bs <= n)%nat) by lia. clear Hn.
  revert bs Hlen. induction n as [|n IH]; intros bs Hlen.
  { destruct bs; [reflexivity|cbn [length] in Hlen; lia]. }
  destruct bs as [|b0 r0]; [reflexivity|]. cbn [length] in Hlen.
  rewrite Buffer_toString_cons.
  pose proof (decode_step_well_formed b0 r0) as Hstep.
  destruct (decode_step b0 r0) as [units taken]. cbn [fst] in Hstep.
  apply Hstep.
  destruct taken; [apply IH; lia| | |];
    repeat match goal with
    | |- context [match ?r with [] => _ | _ :: _ => _ end] =>
      destruct r; [reflexivity|]; cbn [length] in Hlen
    end; apply IH; cbn [length] in *; lia.
Qed.

Lemma BallotData_deserialize_valid (sb sb' : SmartBuffer) (b : BallotData.t) :
  BallotData.deserialize sb = Ok (b, sb') ->
  well_formed (BallotData.proposal_id b) = true
  /\ VoterCard.valid (BallotData.card b)
  /\ 0 <= BallotData.sequence b < 2 ^ 64
  /\ length (sig_data (BallotData.signature b)) = Signature_Width.
Proof.
  unfold BallotData.deserialize. intros E.
  repeat match type of E with
  | bind ?m _ = _ =>
    let H := fresh "E" in
    destruct m as [[? ?]|?] eqn:H; [|discriminate]; cbn [bind] in E
  | (if ?c then _ else _) = _ => destruct c; [|discriminate]
  end.
  injection E as <- <-.
  cbn [BallotData.new BallotData.proposal_id BallotData.card
       BallotData.sequence BallotData.signature sig_data].
  split; [apply Buffer_toString_well_formed|].
  split; [eapply VoterCard_deserialize_valid; eassumption|].
  split.
  - match goal with
    | H : VarInt.toNumber _ = Ok (?v, _) |- 0 <= ?v < _ =>
      apply toNumber_inv in H; apply H
    end.
  - match goal with
    | H : Utils_readBuffer _ (Z.of_nat Signature_Width) = Ok (?xs, _)
      |- length ?xs = _ => apply Utils_readBuffer_inv in H; apply H
    end.
Qed.

(** X11. Whatever [BallotData.deserialize] returns has a proposal id that
    is a Unicode string (ill-formed UTF-8 was replaced, not kept), a card
    with 32-octet keys, 64-octet signature and expiry below 2^64, a
    64-octet signature and a sequence number below 2^64; when moreover the
    sequence number is below 2^32 and the two blocks are within Node's
    buffer limit, the record can be serialized again and read back
    unchanged. *)
Theorem BallotData_deserialize_returns_valid
    (buffer buffer' : SmartBuffer) (b : BallotData.t) :
  BallotData.deserialize buffer = Ok (b, buffer') ->
  well_formed (BallotData.proposal_id b) = true
  /\ VoterCard.valid (BallotData.card b)
  /\ 0 <= BallotData.sequence b < 2 ^ 64
  /\ length (sig_data (BallotData.signature b)) = 64%nat
  /\ (BallotData.sequence b < 2 ^ 32 ->
      Z.of_nat (length (Buffer_from (BallotData.proposal_id b))) < 2 ^ 32 ->
      Z.of_nat (length (BallotData.ballot b)) < 2 ^ 32 ->
      exists wire buffer'',
        BallotData.serialize b SmartBuffer_new = Ok wire
        /\ BallotData.deserialize wire = Ok (b, buffer'')).
Proof.
  intros E.
  destruct (BallotData_deserialize_valid _ _ _ E) as (Hwf & Hc & Hs & Hsig).
  split; [exact Hwf|]. split; [exact Hc|]. split; [exact Hs|].
  split; [exact Hsig|]. intros Hs32 Hp Hb.
  assert (Hv : BallotData.valid b).
  { unfold BallotData.valid. split; [exact Hwf|]. split; [exact Hp|].
    split; [exact Hb|]. split; [exact Hc|]. split; [lia|exact Hsig]. }
  exists (writeBuffer (BallotData_wire b) SmartBuffer_new).
  destruct (BallotData_deserialize_app b []
              (writeBuffer (BallotData_wire b) SmartBuffer_new) Hv)
    as (sb'' & Hd & _).
  { rewrite unread_written. now rewrite app_nil_r. }
  exists sb''. split; [now apply BallotData_serialize_wire|exact Hd].
Qed.

(** A record on the wire whose proposal id block is the octets [p]. *)
Lemma BallotData_deserialize_block (p ballot sig rest : Buffer)
    (c : VoterCard.t) (sequence : Z) (sb : SmartBuffer) :
  Z.of_nat (length p) < 2 ^ 32 ->
  Z.of_nat (length ballot) < 2 ^ 32 ->
  VoterCard.valid c ->
  0 <= sequence < 2 ^ 32 ->
  length sig = Signature_Width ->
  unread sb
  = prefixed (Buffer_from BallotData.HEADER) ++ prefixed p
    ++ prefixed ballot ++ VoterCard_wire c ++ varint_bytes sequence
    ++ sig ++ rest ->
  exists sb',
    BallotData.deserialize sb
    = Ok (BallotData.mk (Buffer_toString p) ballot c sequence
            (mkSignature sig), sb')
    /\ unread sb' = rest.
Proof.
  intros Hp' Hb' Hcard Hs Hsig Hu.
  unfold prefixed in Hu. rewrite <- !app_assoc in Hu.
  unfold BallotData.deserialize.
  pose proof header_length_fits as H8.
  assert (Hp : 0 <= Z.of_nat (length p) < 2 ^ 32) by lia.
  assert (Hb : 0 <= Z.of_nat (length ballot) < 2 ^ 32) by lia.
  read_ok (toNumber_app _ _ _ H8 Hu) as sb1 Hu1.
  read_ok (Utils_readBuffer_app _ _ _ _ Hu1 eq_refl) as sb2 Hu2.
  header_passes.
  read_ok (toNumber_app _ _ _ Hp Hu2) as sb3 Hu3.
  read_ok (Utils_readBuffer_app _ _ _ _ Hu3 eq_refl) as sb4 Hu4.
  read_ok (toNumber_app _ _ _ Hb Hu4) as sb5 Hu5.
  read_ok (Utils_readBuffer_app _ _ _ _ Hu5 eq_refl) as sb6 Hu6.
  read_ok (VoterCard_deserialize_app _ _ _ Hcard Hu6) as sb7 Hu7.
  read_ok (toNumber_app _ _ _ Hs Hu7) as sb8 Hu8.
  read_ok (Utils_readBuffer_app _ _ _ (Z.of_nat Signature_Width) Hu8
             ltac:(now rewrite Hsig)) as sb9 Hu9.
  exists sb9. split; [reflexivity|assumption].
Qed.

Lemma BallotData_deserialize_returns_valid_witness :
  let buffer :=
    SmartBuffer_fromBuffer
      (prefixed (Buffer_from BallotData.HEADER)
       ++ [Byte.x02; Byte.xc3; Byte.x28] ++ [Byte.x00]
       ++ VoterCard_wire sample_card ++ [Byte.x07] ++ repeat Byte.xaa 64) in
  exists b buffer',
    BallotData.deserialize buffer = Ok (b, buffer')
    /\ BallotData.proposal_id b = [0xFFFD; 0x28]
    /\ well_formed (BallotData.proposal_id b) = true
    /\ exists wire buffer'',
         BallotData.serialize b SmartBuffer_new = Ok wire
         /\ BallotData.deserialize wire = Ok (b, buffer'')
         /\ toBuffer wire <> toBuffer buffer.
Proof.
  intros buffer.
  destruct (BallotData.deserialize buffer) as [[b buffer']|e] eqn:E;
    [|vm_compute in E; discriminate].
  exists b, buffer'. split; [reflexivity|].
  destruct (BallotData_deserialize_returns_valid buffer buffer' b E)
    as (Hwf & _ & _ & _ & Hagain).
  vm_compute in E. injection E as <- <-.
  split; [reflexivity|]. split; [exact Hwf|].
  destruct Hagain as (wire & buffer'' & Hs & Hd);
    [cbn; lia|cbn; lia|cbn; lia|].
  exists wire, buffer''. split; [exact Hs|]. split; [exact Hd|].
  vm_compute in Hs. injection Hs as <-. vm_compute. discriminate.
Defined.

(** X12. [BallotData.deserialize] takes any octets as the proposal id and
    decodes them leniently; it does not reject ill-formed UTF-8.  So the
    record does not determine the input: two inputs that differ only in
    proposal id blocks with the same decoding give the same record (and so
    the same hash input and the same answer from [verify]). *)
Theorem BallotData_deserialize_lenient_proposal_id
    (p1 p2 ballot sig : Buffer) (c : VoterCard.t) (sequence : Z) :
  Z.of_nat (length p1) < 2 ^ 32 ->
  Z.of_nat (length p2) < 2 ^ 32 ->
  Z.of_nat (length ballot) < 2 ^ 32 ->
  VoterCard.valid c ->
  0 <= sequence < 2 ^ 32 ->
  length sig = 64%nat ->
  Buffer_toString p1 = Buffer_toString p2 ->
  let input p :=
    SmartBuffer_fromBuffer
      (prefixed (Buffer_from BallotData.HEADER) ++ prefixed p
       ++ prefixed ballot ++ VoterCard_wire c ++ varint_bytes sequence
       ++ sig) in
  exists b s1 s2,
    BallotData.deserialize (input p1) = Ok (b, s1)
    /\ BallotData.deserialize (input p2) = Ok (b, s2)
    /\ BallotData.proposal_id b = Buffer_toString p1.
Proof.
  intros Hp1 Hp2 Hb Hc Hs Hsig Hsame input.
  destruct (BallotData_deserialize_block p1 ballot sig [] c sequence
              (input p1) Hp1 Hb Hc Hs Hsig) as (s1 & Hd1 & _).
  { unfold input. rewrite unread_fromBuffer, app_nil_r. reflexivity. }
  destruct (BallotData_deserialize_block p2 ballot sig [] c sequence
              (input p2) Hp2 Hb Hc Hs Hsig) as (s2 & Hd2 & _).
  { unfold input. rewrite unread_fromBuffer, app_nil_r. reflexivity. }
  rewrite <- Hsame in Hd2.
  eexists _, s1, s2. split; [exact Hd1|]. split; [exact Hd2|reflexivity].
Qed.

Lemma BallotData_deserialize_lenient_proposal_id_witness :
  let input p :=
    SmartBuffer_fromBuffer
      (prefixed (Buffer_from BallotData.HEADER) ++ prefixed p
       ++ prefixed (Buffer_alloc 16) ++ VoterCard_wire sample_card
       ++ varint_bytes 0 ++ repeat Byte.x00 64) in
  input [Byte.xff; Byte.xff] <> input [Byte.xfe; Byte.x80]
  /\ exists b s1 s2,
       BallotData.deserialize (input [Byte.xff; Byte.xff]) = Ok (b, s1)
       /\ BallotData.deserialize (input [Byte.xfe; Byte.x80]) = Ok (b, s2)
       /\ BallotData.proposal_id b = [0xFFFD; 0xFFFD].
Proof.
  intros input. split; [vm_compute; discriminate|].
  destruct (BallotData_deserialize_lenient_proposal_id
              [Byte.xff; Byte.xff] [Byte.xfe; Byte.x80]
              (Buffer_alloc 16) (repeat Byte.x00 64) sample_card 0)
    as (b & s1 & s2 & H1 & H2 & Hpid);
    try (cbn; lia); try reflexivity; [apply sample_card_valid|].
  exists b, s1, s2. split; [exact H1|]. split; [exact H2|].
  rewrite Hpid. reflexivity.
Defined.

(** ** The wallet link data *)

Lemma base64_index_char (i : Z) :
  0 <= i < 64 ->
  base64_index (base64_char i) = i /\ base64_char i <> base64_pad.
Proof.
  intros Hi. unfold base64_index, base64_char, base64_pad.
  repeat match goal with
  | |- context [?a <? ?b] => destruct (Z.ltb_spec a b)
  | |- context [?a =? ?b] => destruct (Z.eqb_spec a b)
  | |- context [?a <=? ?b] => destruct (Z.leb_spec a b)
  end; cbn [andb]; split; lia.
Qed.

Lemma byte_of_Z_eq (z : Z) (b : byte) : z = Z_of_byte b -> byte_of_Z z = b.
Proof. intros ->. apply byte_of_Z_of_byte. Qed.

Lemma base64_char_index (i : Z) :
  0 <= i < 64 -> base64_index (base64_char i) = i.
Proof. intros Hi. apply base64_index_char, Hi. Qed.

Lemma base64_char_not_pad (i : Z) :
  0 <= i < 64 -> (base64_char i =? base64_pad) = false.
Proof. intros Hi. apply Z.eqb_neq. apply base64_index_char, Hi. Qed.

(** Base64 text determines the octets it was made from. *)
Lemma Buffer_from_base64_toString (bs : Buffer) :
  Buffer_from_base64 (Buffer_toString_base64 bs) = bs.
Proof.
  remember (length bs) as n eqn:Hn.
  assert (Hlen : (length bs <= n)%nat) by lia. clear Hn.
  revert bs Hlen. induction n as [|n IH]; intros bs Hlen.
  { destruct bs; [reflexivity|cbn [length] in Hlen; lia]. }
  destruct bs as [|a [|b [|c r]]]; [reflexivity| | |].
  - pose proof (Z_of_byte_range a).
    cbn [Buffer_toString_base64 Buffer_from_base64].
    rewrite Z.eqb_refl, !base64_char_index by div_lia.
    f_equal. apply byte_of_Z_eq. div_lia.
  - pose proof (Z_of_byte_range a). pose proof (Z_of_byte_range b).
    cbn [Buffer_toString_base64 Buffer_from_base64].
    rewrite Z.eqb_refl, base64_char_not_pad, !base64_char_index by div_lia.
    f_equal; [|f_equal].
    + apply byte_of_Z_eq. div_lia.
    + apply byte_of_Z_eq. div_lia.
  - pose proof (Z_of_byte_range a). pose proof (Z_of_byte_range b).
    pose proof (Z_of_byte_range c).
    cbn [Buffer_toString_base64 Buffer_from_base64 app].
    rewrite !base64_char_not_pad, !base64_char_index by div_lia.
    cbn [length] in Hlen. rewrite IH by lia. cbn [app].
    f_equal; [|f_equal; [|f_equal]].
    + apply byte_of_Z_eq. div_lia.
    + apply byte_of_Z_eq. div_lia.
    + apply byte_of_Z_eq. div_lia.
Qed.

Lemma getLinkData_payload (b : BallotData.t) :
  BallotData.valid b ->
  LinkData.getLinkData b
  = Ok (LinkData.mk (Buffer_toString_base64 (BallotData_wire b))).
Proof.
  intros Hv. unfold LinkData.getLinkData.
  rewrite BallotData_serialize_wire by exact Hv. reflexivity.
Qed.

(** X13. The link data of a valid ballot record holds the whole record:
    the payload read back from base64 deserializes to the record, and no
    other valid record has the same link data. *)
Theorem getLinkData_determines_record (b : BallotData.t) :
  BallotData.valid b ->
  exists link,
    LinkData.getLinkData b = Ok link
    /\ (exists buffer',
          BallotData.deserialize
            (SmartBuffer_fromBuffer
               (Buffer_from_base64 (LinkData.payload link)))
          = Ok (b, buffer')
          /\ remaining buffer' = 0)
    /\ forall b',
         BallotData.valid b' -> LinkData.getLinkData b' = Ok link -> b' = b.
Proof.
  intros Hv. eexists. split; [now apply getLinkData_payload|].
  cbn [LinkData.payload]. rewrite Buffer_from_base64_toString.
  assert (Hread : forall x, BallotData.valid x ->
            exists sb',
              BallotData.deserialize (SmartBuffer_fromBuffer (BallotData_wire x))
              = Ok (x, sb') /\ unread sb' = []).
  { intros x Hx. apply BallotData_deserialize_app; [exact Hx|].
    rewrite unread_fromBuffer. now rewrite app_nil_r. }
  split.
  - destruct (Hread b Hv) as (sb' & Hd & Hu). exists sb'.
    split; [exact Hd|]. now rewrite remaining_unread, Hu.
  - intros b' Hv' E. rewrite getLinkData_payload in E by exact Hv'.
    assert (E' : Buffer_toString_base64 (BallotData_wire b')
                 = Buffer_toString_base64 (BallotData_wire b))
      by congruence.
    clear E. rename E' into E.
    apply (f_equal Buffer_from_base64) in E.
    rewrite !Buffer_from_base64_toString in E.
    destruct (Hread b Hv) as (s & Hd & _).
    destruct (Hread b' Hv') as (s' & Hd' & _).
    rewrite E in Hd'. congruence.
Qed.

Lemma getLinkData_determines_record_witness :
  BallotData.valid sample_ballot
  /\ exists link,
       LinkData.getLinkData sample_ballot = Ok link
       /\ length (LinkData.payload link) = 312%nat
       /\ firstn 12 (LinkData.payload link)
          = [67; 69; 74; 66; 84; 69; 120; 80; 86; 67; 65; 103]
       /\ exists buffer',
            BallotData.deserialize
              (SmartBuffer_fromBuffer
                 (Buffer_from_base64 (LinkData.payload link)))
            = Ok (sample_ballot, buffer').
Proof.
  split; [apply sample_ballot_valid|].
  destruct (getLinkData_determines_record sample_ballot sample_ballot_valid)
    as (link & E & (buffer' & Hd & _) & _).
  exists link. split; [exact E|].
  assert (Hp : LinkData.payload link
               = Buffer_toString_base64 (BallotData_wire sample_ballot)).
  { rewrite getLinkData_payload in E by apply sample_ballot_valid.
    now injection E as <-. }
  split; [rewrite Hp; vm_compute; reflexivity|].
  split; [rewrite Hp; vm_compute; reflexivity|].
  exists buffer'. exact Hd.
Defined.

(** ** How [BallotData.deserialize] fails *)









(** *** An underrun comes from an input cut short *)

Lemma padded (pre : Buffer) (n : nat) :
  (length pre < n)%nat ->
  exists full, length full = n /\ truncation pre full.
Proof.
  intros Hlt. exists (pre ++ repeat Byte.x00 (n - length pre)). split.
  - rewrite length_app, repeat_length. lia.
  - exists (repeat Byte.x00 (n - length pre)). split; [|reflexivity].
    destruct (n - length pre)%nat eqn:E; [lia|discriminate].
Qed.

Lemma readChecked_Err (w : nat) (sb : SmartBuffer) (e : Error) :
  VarInt.readChecked w sb = Err e -> (length (unread sb) < w)%nat.
Proof.
  unfold VarInt.readChecked. rewrite remaining_unread.
  destruct (Z.ltb_spec (Z.of_nat (length (unread sb))) (Z.of_nat w));
    [intros _; lia|discriminate].
Qed.

Lemma Utils_readBuffer_Err (sb : SmartBuffer) (n : Z) (e : Error) :
  Utils_readBuffer sb n = Err e -> Z.of_nat (length (unread sb)) < n.
Proof.
  unfold Utils_readBuffer. rewrite remaining_unread.
  destruct (Z.ltb_spec (Z.of_nat (length (unread sb))) n);
    [auto|discriminate].
Qed.




(** What [toJSBI] has read is a form of the number it returns. *)
Lemma toJSBI_form (sb sb' : SmartBuffer) (n : Z) :
  VarInt.toJSBI sb = Ok (n, sb') ->
  exists x, varint_form true x n /\ unread sb = x ++ unread sb'.
Proof.
  unfold VarInt.toJSBI. intros E.
  destruct (VarInt.readChecked 1 sb) as [[first sb1]|e] eqn:E1;
    [|discriminate].
  cbn [bind] in E.
  destruct (readChecked_inv _ _ _ _ E1) as (bs1 & Hu1 & Hl1 & Hv1).
  destruct bs1 as [|b [|? ?]]; try discriminate Hl1.
  cbn [le_value] in Hv1. rewrite Z.mul_0_r, Z.add_0_r in Hv1. subst first.
  assert (Hmark : forall w m,
            Z_of_byte b = m -> VarInt.readChecked w sb1 = Ok (n, sb') ->
            exists bs, length bs = w /\ n = le_value bs
                       /\ unread sb = (byte_of_Z m :: bs) ++ unread sb').
  { intros w m Hm Ew.
    destruct (readChecked_inv _ _ _ _ Ew) as (bs2 & Hu2 & Hl2 & Hv2).
    exists bs2. split; [exact Hl2|]. split; [exact Hv2|].
    rewrite <- Hm, byte_of_Z_of_byte. rewrite Hu1, Hu2. reflexivity. }
  destruct (Z.leb_spec (Z_of_byte b) 0xFC).
  { injection E as <- <-. exists [b]. split; [now apply form_8|exact Hu1]. }
  destruct (Z.eqb_spec (Z_of_byte b) 0xFD) as [HFD|].
  { destruct (Hmark _ _ HFD E) as (bs & Hl & -> & Hu).
    eexists. split; [|exact Hu]. now apply (form_16 true). }
  destruct (Z.eqb_spec (Z_of_byte b) 0xFE) as [HFE|].
  { destruct (Hmark _ _ HFE E) as (bs & Hl & -> & Hu).
    eexists. split; [|exact Hu]. now apply (form_32 true). }
  assert (HFF : Z_of_byte b = 0xFF)
    by (pose proof (Z_of_byte_range b); lia).
  destruct (Hmark _ _ HFF E) as (bs & Hl & -> & Hu).
  eexists. split; [|exact Hu]. now apply (form_64 true).
Qed.


(** Where [toJSBI] fails, the input ends inside a big integer. *)
Lemma toJSBI_cut (sb : SmartBuffer) (e : Error) :
  VarInt.toJSBI sb = Err e -> cut_short big_integer (unread sb).
Proof.
  unfold VarInt.toJSBI. intros E.
  destruct (VarInt.readChecked 1 sb) as [[first sb1]|e1] eqn:E1.
  2:{ apply readChecked_Err in E1.
      destruct (unread sb); [|cbn [length] in E1; lia].
      exists [Byte.x00]. split.
      - exists 0. apply (form_8 true Byte.x00). vm_compute. discriminate.
      - exists [Byte.x00]. split; [discriminate|reflexivity]. }
  cbn [bind] in E.
  destruct (readChecked_inv _ _ _ _ E1) as (bs1 & Hu1 & Hl1 & Hv1).
  destruct bs1 as [|b [|? ?]]; try discriminate Hl1.
  cbn [le_value] in Hv1. rewrite Z.mul_0_r, Z.add_0_r in Hv1. subst first.
  assert (Hmark : forall w m,
            Z_of_byte b = m ->
            (forall bs, length bs = w ->
                        varint_form true (byte_of_Z m :: bs) (le_value bs)) ->
            VarInt.readChecked w sb1 = Err e ->
            cut_short big_integer (unread sb)).
  { intros w m Hm Hform Ew. apply readChecked_Err in Ew.
    destruct (padded _ _ Ew) as (full & Hl & missing & Hne & ->).
    exists (byte_of_Z m :: unread sb1 ++ missing). split.
    - eexists. apply Hform. exact Hl.
    - exists missing. split; [exact Hne|].
      rewrite Hu1, <- Hm, byte_of_Z_of_byte. reflexivity. }
  destruct (Z.leb_spec (Z_of_byte b) 0xFC); [discriminate|].
  destruct (Z.eqb_spec (Z_of_byte b) 0xFD) as [HFD|].
  { apply (Hmark 2%nat _ HFD); [|exact E].
    intros bs Hl. now apply (form_16 true). }
  destruct (Z.eqb_spec (Z_of_byte b) 0xFE) as [HFE|].
  { apply (Hmark 4%nat _ HFE); [|exact E].
    intros bs Hl. now apply (form_32 true). }
  assert (HFF : Z_of_byte b = 0xFF)
    by (pose proof (Z_of_byte_range b); lia).
  apply (Hmark 8%nat _ HFF); [|exact E].
  intros bs Hl. now apply (form_64 true).
Qed.




(** One field of a layout, read backwards: where the reader underruns, or
    takes the field and leaves an input that ends inside a later field,
    the input ends inside the layout. *)
Lemma octets_back (n : nat) (later : list field) (sb : SmartBuffer) :
  match Utils_readBuffer sb (Z.of_nat n) with
  | Ok (_, sb1) => cut_in later (unread sb1)
  | Err _ => True
  end ->
  cut_in (octets n :: later) (unread sb).
Proof.
  destruct (Utils_readBuffer sb (Z.of_nat n)) as [[x sb1]|e] eqn:E; intros H.
  - apply Utils_readBuffer_inv in E. destruct E as [Hl Hu].
    right. exists x, (unread sb1). auto.
  - left. apply Utils_readBuffer_Err in E.
    destruct (padded (unread sb) n) as (full & Hl & Ht); [lia|].
    now exists full.
Qed.

Lemma big_integer_back (later : list field) (sb : SmartBuffer) :
  match VarInt.toJSBI sb with
  | Ok (_, sb1) => cut_in later (unread sb1)
  | Err _ => True
  end ->
  cut_in (big_integer :: later) (unread sb).
Proof.
  destruct (VarInt.toJSBI sb) as [[n sb1]|e] eqn:E; intros H.
  - destruct (toJSBI_form _ _ _ E) as (x & Hf & Hu).
    right. exists x, (unread sb1). split; [now exists n|auto].
  - left. now apply toJSBI_cut in E.
Qed.



Lemma VoterCard_back (later : list field) (sb : SmartBuffer) :
  match VoterCard.deserialize sb with
  | Ok (_, sb1) => cut_in later (unread sb1)
  | Err _ => True
  end ->
  cut_in (VoterCard_fields ++ later) (unread sb).
Proof.
  unfold VoterCard.deserialize. intros H.
  change (VoterCard_fields ++ later)
    with (octets SIZE_OF_PUBLIC_KEY :: octets SIZE_OF_PUBLIC_KEY
          :: big_integer :: octets Signature_Width :: later).
  apply octets_back.
  destruct (Utils_readBuffer sb _) as [[va sb1]|e];
    [cbn [bind] in H|exact I].
  apply octets_back.
  destruct (Utils_readBuffer sb1 _) as [[ad sb2]|e];
    [cbn [bind] in H|exact I].
  apply big_integer_back.
  destruct (VarInt.toJSBI sb2) as [[ex sb3]|e]; [cbn [bind] in H|exact I].
  apply octets_back.
  destruct (Utils_readBuffer sb3 _) as [[sg sb4]|e];
    [cbn [bind] in H|exact I].
  exact H.
Qed.

(** Every failure of [VoterCard.deserialize] is on a truncated input. *)
Lemma VoterCard_fails_when_truncated (sb : SmartBuffer) (e : Error) :
  VoterCard.deserialize sb = Err e -> truncated_VoterCard (unread sb).
Proof.
  intros E. unfold truncated_VoterCard.
  rewrite <- (app_nil_r VoterCard_fields). apply VoterCard_back.
  now rewrite E.
Qed.




(** X15. The wire form is prefix-free: what [serialize] writes for one
    valid record never begins what it writes for another.  If the octets
    of one valid record are followed by more octets and the whole is again
    the octets of a valid record, then nothing followed and the records are
    the same. *)
Theorem BallotData_wire_prefix_free (b1 b2 : BallotData.t)
    (w1 w2 : SmartBuffer) (more : Buffer) :
  BallotData.valid b1 -> BallotData.valid b2 ->
  BallotData.serialize b1 SmartBuffer_new = Ok w1 ->
  BallotData.serialize b2 SmartBuffer_new = Ok w2 ->
  toBuffer w2 = toBuffer w1 ++ more ->
  more = [] /\ b1 = b2.
Proof.
  intros Hv1 Hv2 E1 E2 Hw.
  rewrite BallotData_serialize_wire in E1, E2 by assumption.
  injection E1 as <-. injection E2 as <-.
  change (BallotData_wire b2 = BallotData_wire b1 ++ more) in Hw.
  destruct (BallotData_deserialize_app b2 []
              (SmartBuffer_fromBuffer (BallotData_wire b2)) Hv2)
    as (s2 & Hd2 & Hu2).
  { rewrite unread_fromBuffer. now rewrite app_nil_r. }
  destruct (BallotData_deserialize_app b1 more
              (SmartBuffer_fromBuffer (BallotData_wire b2)) Hv1)
    as (s1 & Hd1 & Hu1).
  { rewrite unread_fromBuffer. exact Hw. }
  rewrite Hd2 in Hd1. injection Hd1 as -> ->.
  split; [congruence|reflexivity].
Qed.

Lemma BallotData_wire_prefix_free_witness :
  exists w1,
    BallotData.valid sample_ballot
    /\ BallotData.serialize sample_ballot SmartBuffer_new = Ok w1
    /\ forall more,
         toBuffer w1 = toBuffer w1 ++ more -> more = [].
Proof.
  destruct (BallotData.serialize sample_ballot SmartBuffer_new)
    as [w1|e] eqn:E; [|vm_compute in E; discriminate].
  exists w1. split; [apply sample_ballot_valid|]. split; [reflexivity|].
  intros more Hw.
  apply (BallotData_wire_prefix_free sample_ballot sample_ballot w1 w1 more
           sample_ballot_valid sample_ballot_valid E E Hw).
Defined.
